(** * The Motorola documentation crawler ([src/motorola_crawler.py])

    A shallow embedding of [extract_navigation_links], [crawl_single_page]
    and [crawl_documentation_bundle], and the properties of the crawler's
    specification stated and settled against it.

    Conventions of the embedding.
    - A Python [str] is the list of its code points.
    - The three facts about Unicode the script relies on (which code points
      [\d] matches, which ones [str.split()] and [str.strip()] treat as white
      space, and [str.lower]) are the fields of the class [Unicode]; every
      definition and theorem is generic in them.  Concrete runs use
      [ascii_unicode], which is CPython's behaviour on code points below 128.
    - A parsed page is a [node] tree, as BeautifulSoup builds it: the value of
      [BeautifulSoup(result.html, 'html.parser')] is what the field [html] of
      a [CrawlResult] holds.  The tree's methods ([find_all], [find_next],
      [get_text], [decompose], [==]) are those of BeautifulSoup 4.12.
    - [crawler.arun], [asyncio.sleep] and [datetime.now] act on a [World]:
      the web and the clock are oracles, and every fetch and sleep is logged
      in the world's trace.  Console output is not modelled. *)

From stdpp Require Import gmap strings list.
From Stdlib Require Import ZArith Lia.

Open Scope Z_scope.
Set Warnings "-register-all".

(** ** Python strings *)

Abbreviation char := N (only parsing).
Abbreviation str := (list N) (only parsing).

(** A string literal of the source. *)
Definition lit (s : string) : str :=
  (λ a, Ascii.N_of_ascii a) <$> String.list_ascii_of_string s.

Class Unicode := {
  (** the code points [\d] matches in a [str] pattern *)
  isdecimal : char → bool;
  (** the code points [str.split()] and [str.strip()] drop *)
  isspace : char → bool;
  (** [str.lower] *)
  lower : str → str
}.

Definition ascii_isdecimal (c : char) : bool := ((48 <=? c) && (c <=? 57))%N.

Definition ascii_isspace (c : char) : bool :=
  (((9 <=? c) && (c <=? 13)) || ((28 <=? c) && (c <=? 32)))%N.

Definition ascii_lower (s : str) : str :=
  (λ c, if ((65 <=? c) && (c <=? 90))%N then (c + 32)%N else c) <$> s.

Definition ascii_unicode : Unicode :=
  {| isdecimal := ascii_isdecimal; isspace := ascii_isspace; lower := ascii_lower |}.

(** [s.startswith(p)] *)
Fixpoint startswith (p s : str) : bool :=
  match p, s with
  | [], _ => true
  | _ :: _, [] => false
  | a :: p', b :: s' => bool_decide (a = b) && startswith p' s'
  end.

(** [sub in s] *)
Fixpoint contains (sub s : str) : bool :=
  startswith sub s ||
  match s with
  | [] => false
  | _ :: s' => contains sub s'
  end.

(** [sep.join(parts)] *)
Fixpoint join (sep : str) (parts : list str) : str :=
  match parts with
  | [] => []
  | [p] => p
  | p :: ps => p ++ sep ++ join sep ps
  end.

(** [s.split(sep)] for a non-empty [sep]: [skip] counts the characters of a
    separator that is being stepped over, [cur] is the piece read so far. *)
Fixpoint split_go (sep : str) (skip : nat) (cur : str) (s : str) : list str :=
  match s with
  | [] => [cur]
  | c :: s' =>
      match skip with
      | S k => split_go sep k cur s'
      | O =>
          if startswith sep s
          then cur :: split_go sep (length sep - 1) [] s'
          else split_go sep O (cur ++ [c]) s'
      end
  end.

Definition split_on (sep s : str) : list str := split_go sep O [] s.

Section Text.
Context {U : Unicode}.

(** [s.split()]: the maximal runs of characters that are not white space. *)
Fixpoint words_go (cur : str) (s : str) : list str :=
  match s with
  | [] => if bool_decide (cur = []) then [] else [cur]
  | c :: s' =>
      if isspace c
      then (if bool_decide (cur = []) then [] else [cur]) ++ words_go [] s'
      else words_go (cur ++ [c]) s'
  end.

Definition split_ws (s : str) : list str := words_go [] s.

Fixpoint lstrip (s : str) : str :=
  match s with
  | c :: s' => if isspace c then lstrip s' else s
  | [] => []
  end.

(** [s.strip()] *)
Definition strip (s : str) : str := reverse (lstrip (reverse (lstrip s))).

(** [' '.join(s.split())] *)
Definition normalize_ws (s : str) : str := join (lit " ") (split_ws s).

(** [re.search(r'/bundle/(\d+)/', s)], giving group 1 of the leftmost
    match.  At a given start the digits are the longest run. *)
Fixpoint digits (s : str) : str * str :=
  match s with
  | c :: s' => if isdecimal c then let '(d, r) := digits s' in (c :: d, r) else ([], s)
  | [] => ([], [])
  end.

Definition bundle_match_at (s : str) : option str :=
  if startswith (lit "/bundle/") s then
    let '(d, r) := digits (drop 8 s) in
    if bool_decide (d ≠ []) && startswith (lit "/") r then Some d else None
  else None.

Fixpoint bundle_search (s : str) : option str :=
  match s with
  | [] => None
  | _ :: s' =>
      match bundle_match_at s with
      | Some d => Some d
      | None => bundle_search s'
      end
  end.
End Text.

(** ** The parsed page *)

(** The elements of a BeautifulSoup tree.  [Comment] stands for every string
    class that [get_text] leaves out (comments, doctypes, declarations);
    [attrs] is the tag's attribute dictionary, each value the attribute's
    text. *)
Inductive node :=
| NavigableString (s : str)
| Comment (s : str)
| Tag (name : str) (attrs : gmap (list N) (list N)) (contents : list node).

(** An element's place in the tree: the child indices from the root. *)
Abbreviation path := (list nat) (only parsing).

(** An element together with what its navigation attributes give: where it
    is, and the elements after it under the same parent ([next_siblings]). *)
Record element := {
  e_path : path;
  e_node : node;
  e_next_siblings : list node
}.

Definition under (i : nat) (e : element) : element :=
  {| e_path := i :: e_path e; e_node := e_node e; e_next_siblings := e_next_siblings e |}.

(** [tag.descendants]: everything below [n], in document order. *)
Fixpoint descendants (n : node) : list element :=
  match n with
  | Tag _ _ cs =>
      (fix children (i : nat) (l : list node) : list element :=
         match l with
         | [] => []
         | c :: l' =>
             {| e_path := [i]; e_node := c; e_next_siblings := l' |}
               :: (under i <$> descendants c) ++ children (S i) l'
         end) O cs
  | _ => []
  end.

Definition is_tag (n : node) : bool :=
  match n with Tag _ _ _ => true | _ => false end.

Definition name_in (names : list str) (n : node) : bool :=
  match n with
  | Tag nm _ _ => bool_decide (nm ∈ names)
  | _ => false
  end.

Definition attr (k : str) (n : node) : option str :=
  match n with
  | Tag _ a _ => a !! k
  | _ => None
  end.

(** [a == b] on elements: tags are compared by name, attributes and
    contents, strings by their text. *)
Fixpoint py_eq (a b : node) : bool :=
  match a, b with
  | Tag n1 a1 c1, Tag n2 a2 c2 =>
      bool_decide (n1 = n2) && bool_decide (a1 = a2) &&
      (fix all2 (l1 l2 : list node) : bool :=
         match l1, l2 with
         | [], [] => true
         | x :: l1', y :: l2' => py_eq x y && all2 l1' l2'
         | _, _ => false
         end) c1 c2
  | Tag _ _ _, _ | _, Tag _ _ _ => false
  | NavigableString s1, NavigableString s2
  | NavigableString s1, Comment s2
  | Comment s1, NavigableString s2
  | Comment s1, Comment s2 => bool_decide (s1 = s2)
  end.

(** The strings [get_text] reads: the [NavigableString]s below [n]. *)
Definition strings (n : node) : list str :=
  omap (λ e, match e_node e with NavigableString s => Some s | _ => None end)
       (descendants n).

(** [tag.find_all(names)] *)
Definition find_all (names : list str) (n : node) : list element :=
  filter (λ e, name_in names (e_node e) = true) (descendants n).

Section Soup.
Context {U : Unicode}.

(** [tag.get_text()] *)
Definition get_text (n : node) : str := concat (strings n).

(** [tag.get_text(separator=sep, strip=True)] *)
Definition get_text_strip (sep : str) (n : node) : str :=
  join sep (filter (λ s, s ≠ []) (strip <$> strings n)).
End Soup.

(** ** The world: the web, the clock, and what the crawler did *)

(** What [crawler.arun] returns, as far as the script reads it:
    [raw_markdown] is [result.markdown.raw_markdown], [html] the tree
    BeautifulSoup builds from [result.html]. *)
Record CrawlResult := {
  success : bool;
  error_message : option str;
  html : node;
  raw_markdown : str;
  metadata : gmap (list N) (list N)
}.

Inductive event :=
| Fetch (url : str)      (* [await crawler.arun(url, ...)] *)
| Sleep (ms : N).        (* [await asyncio.sleep(ms / 1000)] *)

Record World := {
  (** the answer to the [n]-th fetch of the run (counting from 0) *)
  web : nat → str → CrawlResult;
  (** [datetime.now().isoformat()] after that many events *)
  clock : nat → str;
  trace : list event
}.

Definition log (e : event) (w : World) : World :=
  {| web := web w; clock := clock w; trace := trace w ++ [e] |}.

(** The URLs fetched so far, oldest first. *)
Definition fetched (t : list event) : list str :=
  omap (λ e, match e with Fetch u => Some u | Sleep _ => None end) t.

Inductive exn :=
| UnboundLocalError (name : string)
| AttributeError (what : string).

Inductive result (A : Type) :=
| Ok (a : A)
| Raise (e : exn).
Arguments Ok {A} a.
Arguments Raise {A} e.

#[global] Instance result_ret : MRet result := λ A a, Ok a.
#[global] Instance result_bind : MBind result := λ A B f r,
  match r with
  | Ok a => f a
  | Raise e => Raise e
  end.

(** Computations of the script: they read and extend the world, and end in a
    value or in an exception. *)
Definition M (A : Type) : Type := World → result A * World.

#[global] Instance M_ret : MRet M := λ A a w, (Ok a, w).
#[global] Instance M_bind : MBind M := λ A B f m w,
  match m w with
  | (Ok a, w') => f a w'
  | (Raise e, w') => (Raise e, w')
  end.

Definition lift {A} (r : result A) : M A := λ w, (r, w).

Definition arun (url : str) : M CrawlResult := λ w,
  (Ok (web w (length (fetched (trace w))) url), log (Fetch url) w).

Definition sleep (ms : N) : M unit := λ w, (Ok tt, log (Sleep ms) w).

Definition now_isoformat : M str := λ w, (Ok (clock w (length (trace w))), w).

(** ** [extract_navigation_links] *)

(** An entry of [navigation_links]: [{'url': ..., 'nav_text': ...}]. *)
Record NavLink := { url : str; nav_text : str }.

(** The locals the two scans share.  [seen_urls] is bound only once line 79
    has run. *)
Record scan_state := {
  seen_urls : option (gset (list N));
  navigation_links : list NavLink
}.

Section Navigation.
Context {U : Unicode}.

(** Lines 71-75: the first heading whose text says "what's new". *)
Definition is_whats_new (e : element) : bool :=
  contains (lit "what's new") (lower (get_text (e_node e)))
  || contains (lit "whats new") (lower (get_text (e_node e))).

Definition find_whats_new (soup : node) : option element :=
  head (filter (λ e, is_whats_new e = true)
               (find_all [lit "h1"; lit "h2"; lit "h3"; lit "h4"] soup)).

(** What follows the element at [p] in document order. *)
Fixpoint after (p : path) (l : list element) : list element :=
  match l with
  | [] => []
  | e :: l' => if bool_decide (e_path e = p) then l' else after p l'
  end.

(** [e.find_next()]: the first tag after [e] in document order. *)
Definition find_next (soup : node) (e : element) : option element :=
  head (filter (λ x, is_tag (e_node x) = true) (after (e_path e) (descendants soup))).

(** The values [current] takes in the loop of lines 82-107 if nothing
    breaks out of it: [e], then [find_next_sibling()] again and again. *)
Definition sibling_chain (e : element) : list node :=
  e_node e :: filter (λ n, is_tag n = true) (e_next_siblings e).

(** [tag.find_all('a', href=True)] *)
Definition find_links (n : node) : list node :=
  e_node <$> filter (λ e, is_Some (attr (lit "href") (e_node e))) (find_all [lit "a"] n).

(** [tag.find('a', href=True)] *)
Definition find_link (n : node) : option node := head (find_links n).

(** The test of lines 95 and 118. *)
Definition in_bundle (bundle_id url : str) : bool :=
  contains (lit "/bundle/" ++ bundle_id ++ lit "/page/") url
  && negb (contains (lit "/auth/login") url).

(** Lines 97-98 and 119-120. *)
Definition absolute (url : str) : str :=
  if startswith (lit "http") url then url
  else lit "https://docs.motorolasolutions.com" ++ url.

(** Lines 91-105, and again 115-127: one anchor. *)
Definition consider (bundle_id : str) (link : node) (st : scan_state) : result scan_state :=
  let url := default [] (attr (lit "href") link) in
  let text := get_text_strip [] link in
  if in_bundle bundle_id url
  then
    let url := absolute url in
    match seen_urls st with
    | None => Raise (UnboundLocalError "seen_urls")
    | Some seen =>
        if bool_decide (url ∉ seen) && bool_decide (text ≠ [])
        then Ok {| seen_urls := Some ({[url]} ∪ seen);
                   navigation_links :=
                     navigation_links st ++ [{| url := url; nav_text := text |}] |}
        else Ok st
    end
  else Ok st.

(** [for link in links: ...] *)
Fixpoint consider_all (bundle_id : str) (links : list node) (st : scan_state)
  : result scan_state :=
  match links with
  | [] => Ok st
  | link :: links' =>
      match consider bundle_id link st with
      | Ok st' => consider_all bundle_id links' st'
      | Raise e => Raise e
      end
  end.

(** Lines 82-107, over the values of [current]. *)
Fixpoint scan_section (bundle_id : str) (whats_new_section : node)
         (chain : list node) (st : scan_state) : result scan_state :=
  match chain with
  | [] => Ok st
  | current :: chain' =>
      if name_in [lit "h1"; lit "h2"; lit "h3"] current
         && negb (py_eq current whats_new_section)
      then Ok st
      else
        match consider_all bundle_id (find_links current) st with
        | Ok st' => scan_section bundle_id whats_new_section chain' st'
        | Raise e => Raise e
        end
  end.

(** Lines 112-127: the first link of every list item. *)
Fixpoint scan_list_items (bundle_id : str) (lis : list element) (st : scan_state)
  : result scan_state :=
  match lis with
  | [] => Ok st
  | li :: lis' =>
      match find_link (e_node li) with
      | Some link =>
          match consider bundle_id link st with
          | Ok st' => scan_list_items bundle_id lis' st'
          | Raise e => Raise e
          end
      | None => scan_list_items bundle_id lis' st
      end
  end.

(** Lines 66-127: the links of a parsed TOC page. *)
Definition links_of_page (bundle_id : str) (soup : node) : result (list NavLink) :=
  let st0 := {| seen_urls := None; navigation_links := [] |} in
  st ← match find_whats_new soup with
       | Some whats_new_section =>
           scan_section bundle_id (e_node whats_new_section)
             (from_option sibling_chain [] (find_next soup whats_new_section))
             {| seen_urls := Some ∅; navigation_links := [] |}
       | None => Ok st0
       end;
  st ← (if bool_decide (navigation_links st = [])
        then scan_list_items bundle_id (find_all [lit "li"] soup) st
        else Ok st);
  Ok (navigation_links st).

Definition extract_navigation_links (toc_url : str) : M (list NavLink) :=
  result ← arun toc_url;
  if negb (success result) then mret []
  else
    match bundle_search toc_url with
    | None => mret []
    | Some bundle_id => lift (links_of_page bundle_id (html result))
    end.
End Navigation.

(** ** [crawl_single_page] *)

Inductive PyVal :=
| VNone
| VBool (b : bool)
| VInt (z : Z)
| VStr (s : str).

(** Python's truth value of what [dict.get] returns. *)
Definition truthy (v : option PyVal) : bool :=
  match v with
  | None | Some VNone => false
  | Some (VBool b) => b
  | Some (VInt z) => negb (z =? 0)
  | Some (VStr s) => negb (bool_decide (s = []))
  end.

#[global] Instance PyVal_eq_dec : EqDecision PyVal.
Proof. solve_decision. Defined.

(** [x or d] on an optional string. *)
Definition or_else (x : option str) (d : str) : str :=
  match x with
  | Some (c :: s) => c :: s
  | _ => d
  end.

(** Lines 182-186 and 197-201. *)
Definition error_dict (url : str) (error_message : str) : gmap string PyVal :=
  {[ "error" := VBool true; "url" := VStr url; "error_message" := VStr error_message ]}.

(** How the retry loop of lines 166-193 is left: by the [return] of line
    182, or to line 196 with the loop's locals. *)
Inductive loop_exit :=
| Return (d : gmap string PyVal)
| Fallthrough (last_error : option str) (result : option CrawlResult).

(** Line 176. *)
Definition security_block (content : str) : bool :=
  contains (lit "Request unsuccessful") content
  || contains (lit "Incapsula incident ID") content.

(** Lines 166-193; [attempts] is what is left of [range(max_retries + 1)]. *)
Fixpoint retry_loop (url : str) (max_retries : Z) (attempts : list Z)
         (last_error : option str) (result : option CrawlResult) : M loop_exit :=
  match attempts with
  | [] => mret (Fallthrough last_error result)
  | attempt :: attempts' =>
      result ← arun url;
      if success result then
        if security_block (raw_markdown result) then
          let last_error := lit "Security block (WAF/CDN)" in
          if attempt <? max_retries then
            _ ← sleep 3000;
            retry_loop url max_retries attempts' (Some last_error) (Some result)
          else mret (Return (error_dict url last_error))
        else mret (Fallthrough last_error (Some result))
      else
        let last_error := error_message result in
        if attempt <? max_retries then
          _ ← sleep 2000;
          retry_loop url max_retries attempts' last_error (Some result)
        else retry_loop url max_retries attempts' last_error (Some result)
  end.

(** Lines 207-208: every tag of these names is destroyed, with all below it. *)
Fixpoint decompose_all (names : list str) (n : node) : node :=
  match n with
  | Tag nm a cs =>
      Tag nm a
        ((fix children (l : list node) : list node :=
            match l with
            | [] => []
            | c :: l' =>
                if name_in names c then children l'
                else decompose_all names c :: children l'
            end) cs)
  | _ => n
  end.

(** The tree without the subtrees at the paths [gone]; [here] is where [n]
    is. *)
Fixpoint prune_from (here : path) (gone : list path) (n : node) : node :=
  match n with
  | Tag nm a cs =>
      Tag nm a
        ((fix children (i : nat) (l : list node) : list node :=
            match l with
            | [] => []
            | c :: l' =>
                if bool_decide (here ++ [i] ∈ gone) then children (S i) l'
                else prune_from (here ++ [i]) gone c :: children (S i) l'
            end) O cs)
  | _ => n
  end.

(** Destroying the root leaves an empty document. *)
Definition prune (gone : list path) (soup : node) : node :=
  if bool_decide ([] ∈ gone) then
    match soup with
    | Tag nm a _ => Tag nm a []
    | _ => soup
    end
  else prune_from [] gone soup.

(** The text of a string element, of either class. *)
Definition string_of (n : node) : option str :=
  match n with
  | NavigableString s | Comment s => Some s
  | Tag _ _ _ => None
  end.

Section Page.
Context {U : Unicode}.

(** The filter of line 211. *)
Definition cookie_text (text : str) : bool :=
  negb (bool_decide (text = []))
  && (contains (lit "cookie") (lower text)
      || contains (lit "privacy statement") (lower text)).

(** [soup.find_all(text=...)] of line 211: the strings of the page, of
    every class, that pass the filter. *)
Definition cookie_strings (soup : node) : list (path * str) :=
  omap (λ e, match string_of (e_node e) with
             | Some s => if cookie_text s then Some (e_path e, s) else None
             | None => None
             end)
       (descendants soup).

(** Lines 211-213 over the strings found; [gone] lists the parents
    destroyed so far.  [decompose()] empties every element below the tag it
    destroys, and a string emptied that way has no [parent] attribute any
    more: line 212 raises on it. *)
Fixpoint cookie_loop (found : list (path * str)) (gone : list path) : result (list path) :=
  match found with
  | [] => Ok gone
  | (p, text) :: found' =>
      if bool_decide (Exists (λ g, g `prefix_of` p) gone)
      then Raise (AttributeError "parent")
      else if (100 <? Z.of_nat (length text))
           then cookie_loop found' (gone ++ [removelast p])
           else cookie_loop found' gone
  end.

(** Lines 204-213. *)
Definition clean (html : node) : result node :=
  let soup :=
    decompose_all [lit "script"; lit "style"; lit "nav"; lit "header"; lit "footer"] html in
  gone ← cookie_loop (cookie_strings soup) [];
  Ok (prune gone soup).

(** Lines 216-221. *)
Definition page_title (nav_text : option str) (metadata : gmap (list N) (list N)) : str :=
  match nav_text with
  | Some (c :: t) => c :: t
  | _ =>
      let title := default (lit "Unknown") (metadata !! lit "title") in
      let sep := [32; 8212; 32]%N in       (* ' — ' *)
      if contains sep title then default [] (head (split_on sep title)) else title
  end.

(** [soup.find(id=anchor)]: a tag whose [id] is [anchor]; an empty
    [anchor] is also matched by a tag with no [id]. *)
Definition has_id (anchor : str) (e : element) : bool :=
  is_tag (e_node e) &&
  match attr (lit "id") (e_node e) with
  | Some v => bool_decide (v = anchor)
  | None => bool_decide (anchor = [])
  end.

Definition find_id (anchor : str) (soup : node) : option element :=
  head (filter (λ e, has_id anchor e = true) (descendants soup)).

(** Lines 232-237, over [section.find_next_siblings()]. *)
Fixpoint sibling_parts (siblings : list node) : list str :=
  match siblings with
  | [] => []
  | sibling :: siblings' =>
      if name_in [lit "h1"; lit "h2"; lit "h3"; lit "h4"] sibling then []
      else
        let text := get_text_strip [] sibling in
        if bool_decide (text ≠ []) then text :: sibling_parts siblings'
        else sibling_parts siblings'
  end.

(** Lines 224-239: [section_content] once the anchor has been tried. *)
Definition anchor_section (soup : node) (url : str) : option str :=
  if contains (lit "#") url then
    let anchor := default [] (split_on (lit "#") url !! 1%nat) in
    match find_id anchor soup with
    | Some section =>
        let content_parts :=
          get_text_strip [] (e_node section)
            :: sibling_parts (filter (λ n, is_tag n = true) (e_next_siblings section)) in
        Some (join (lit " ") content_parts)
    | None => None
    end
  else None.

(** The filter of line 244 on a tag's [class]: BeautifulSoup holds the
    attribute as the list of its words and tries the filter on every word,
    then on the words joined by spaces; a tag without [class] gives [None]. *)
Definition content_class (n : node) : bool :=
  match attr (lit "class") n with
  | Some v =>
      let c_ok (c : str) :=
        negb (bool_decide (c = [])) && contains (lit "content") (lower c) in
      existsb c_ok (split_ws v) || c_ok (join (lit " ") (split_ws v))
  | None => false
  end.

(** Line 244. *)
Definition find_main_content (soup : node) : option node :=
  match head (find_all [lit "main"; lit "article"] soup) with
  | Some e => Some (e_node e)
  | None =>
      e_node <$> head (filter (λ e, is_tag (e_node e) && content_class (e_node e) = true)
                              (descendants soup))
  end.

(** Lines 224-253. *)
Definition select_content (soup : node) (url : str) : str :=
  let section_content :=
    match anchor_section soup url with
    | Some (c :: s) => c :: s
    | _ =>
        match find_main_content soup with
        | Some main_content => get_text_strip (lit " ") main_content
        | None => get_text_strip (lit " ") soup
        end
    end in
  normalize_ws section_content.

(** Lines 255-264. *)
Definition document (title url : str) (nav_text : option str)
           (section_content crawled_at : str) : gmap string PyVal :=
  {[ "title" := VStr title;
     "url" := VStr url;
     "nav_text" := from_option VStr VNone nav_text;
     "content_snippet" := VStr (take 1500 section_content);
     "full_content" := VStr section_content;
     "content_length" := VInt (Z.of_nat (length section_content));
     "source_type" := VStr (lit "motorola_docs");
     "crawled_at" := VStr crawled_at ]}.

Definition crawl_single_page (url : str) (nav_text : option str) (max_retries : Z)
  : M (gmap string PyVal) :=
  exit ← retry_loop url max_retries (seqZ 0 (max_retries + 1)) None None;
  match exit with
  | Return d => mret d
  | Fallthrough last_error result =>
      (* lines 196-201 *)
      let failure := error_dict url (or_else last_error (lit "Unknown error")) in
      match result with
      | Some result =>
          if success result then
            soup ← lift (clean (html result));
            let title := page_title nav_text (metadata result) in
            let section_content := select_content soup url in
            crawled_at ← now_isoformat;
            mret (document title url nav_text section_content crawled_at)
          else mret failure
      | None => mret failure
      end
  end.

(** ** [crawl_documentation_bundle] *)

(** [l[:k]] *)
Definition slice_to {A} (k : Z) (l : list A) : list A :=
  if 0 <=? k then take (Z.to_nat k) l
  else take (length l - Z.to_nat (- k)) l.

(** Lines 301-314; [documents] is the list built so far. *)
Fixpoint crawl_pages (nav_links : list NavLink) (documents : list (gmap string PyVal))
  : M (list (gmap string PyVal)) :=
  match nav_links with
  | [] => mret documents
  | link :: nav_links' =>
      doc ← crawl_single_page (url link) (Some (nav_text link)) 2;
      let documents :=
        if truthy (doc !! "error") then documents else documents ++ [doc] in
      _ ← sleep 500;
      crawl_pages nav_links' documents
  end.

Definition crawl_documentation_bundle (toc_url : str) (max_pages : option Z)
  : M (list (gmap string PyVal)) :=
  nav_links ← extract_navigation_links toc_url;
  if bool_decide (nav_links = []) then mret []
  else
    let nav_links :=
      match max_pages with
      | Some k => if k =? 0 then nav_links else slice_to k nav_links
      | None => nav_links
      end in
    crawl_pages nav_links [].
End Page.

(** ** Writing pages and worlds down *)

Definition el (name : string) (attrs : list (string * string)) (cs : list node) : node :=
  Tag (lit name) (list_to_map ((λ kv, (lit kv.1, lit kv.2)) <$> attrs)) cs.

Definition txt (s : string) : node := NavigableString (lit s).

(** The [BeautifulSoup] object itself. *)
Definition page (cs : list node) : node := Tag (lit "[document]") ∅ cs.

Definition fetch_ok (markdown : string) (h : node) : CrawlResult :=
  {| success := true; error_message := None; html := h;
     raw_markdown := lit markdown; metadata := ∅ |}.

Definition fetch_failed (message : string) : CrawlResult :=
  {| success := false; error_message := Some (lit message); html := page [];
     raw_markdown := []; metadata := ∅ |}.

(** A fresh world over a given web. *)
Definition world (w : nat → str → CrawlResult) : World :=
  {| web := w; clock := λ _, lit "2025-01-01T00:00:00"; trace := [] |}.

(** A page that loads and reads well: a section, two paragraphs, a heading
    and what follows it. *)
Definition section_page : node :=
  page [ el "div" [("id", "sec1")] [txt " Alpha "];
         el "p" [] [txt "beta"];
         el "p" [] [txt "gamma"];
         el "h2" [] [txt "Next"];
         el "p" [] [txt "tail"] ].


Definition section_url : str := lit "https://docs.motorolasolutions.com/bundle/1/page/a#sec1".

Definition section_web : World := world (λ _ _, fetch_ok "Alpha beta gamma" section_page).

(** A site that answers every request with its WAF's interstitial page. *)
Definition blocked_web : World :=
  world (λ _ _, fetch_ok "Request unsuccessful. Incapsula incident ID: 0" (page [])).

Definition toc_url : str :=
  lit "https://docs.motorolasolutions.com/bundle/89303/page/23111842.html".

(** A TOC address with no [/bundle/<id>/] in it. *)
Definition plain_url : str := lit "https://docs.motorolasolutions.com/toc.html".

(** A TOC page with nothing to find: no heading, no list item. *)
Definition empty_toc : node := page [el "p" [] [txt "Nothing here"]].

Definition empty_web : World := world (λ _ _, fetch_ok "Nothing here" empty_toc).

(** A site that cannot be reached. *)
Definition down_web : World := world (λ _ _, fetch_failed "net::ERR_CONNECTION_RESET").

(** ** What a scan looks at, and what it should keep *)

Section Reference.
Context {U : Unicode}.

(** The link an anchor stands for, if it is one of the bundle's pages. *)
Definition candidate (bundle_id : str) (link : node) : option NavLink :=
  let url := default [] (attr (lit "href") link) in
  if in_bundle bundle_id url
  then Some {| url := absolute url; nav_text := get_text_strip [] link |}
  else None.

(** The bundle's pages among [links], in the order of [links]. *)
Definition candidates (bundle_id : str) (links : list node) : list NavLink :=
  omap (candidate bundle_id) links.

(** Those of them that have a link text. *)
Definition named_candidates (bundle_id : str) (links : list node) : list NavLink :=
  filter (λ c, nav_text c ≠ []) (candidates bundle_id links).

(** The values of [current] the loop of lines 82-107 gets to work on: those
    before the first heading of level 1 to 3 that differs from the section's
    own. *)
Fixpoint scanned (whats_new_section : node) (chain : list node) : list node :=
  match chain with
  | [] => []
  | current :: chain' =>
      if name_in [lit "h1"; lit "h2"; lit "h3"] current
         && negb (py_eq current whats_new_section)
      then []
      else current :: scanned whats_new_section chain'
  end.

(** The anchors the section scan reads, in the order it reads them. *)
Definition section_anchors (soup : node) : list node :=
  match find_whats_new soup with
  | Some whats_new_section =>
      mbind (M := list) find_links
        (scanned (e_node whats_new_section)
                 (from_option sibling_chain [] (find_next soup whats_new_section)))
  | None => []
  end.

(** The anchors the list-item scan reads. *)
Definition list_item_anchors (soup : node) : list node :=
  omap (λ li, find_link (e_node li)) (find_all [lit "li"] soup).

(** The anchors behind the result: the section's if they give any link, the
    list items' if not. *)
Definition scanned_anchors (bundle_id : str) (soup : node) : list node :=
  if bool_decide (named_candidates bundle_id (section_anchors soup) = [])
  then list_item_anchors soup
  else section_anchors soup.

(** [links] keeps of [cands] the first entry of every URL, in the order of
    [cands]. *)
Definition first_seen_of (cands links : list NavLink) : Prop :=
  NoDup (url <$> links)
  ∧ links `sublist_of` cands
  ∧ (∀ c, c ∈ cands → url c ∈ url <$> links)
  ∧ (∀ l, l ∈ links →
       ∃ before later, cands = before ++ l :: later ∧ url l ∉ url <$> before).

(** The list [navigation_links] grows into when the scan meets [cands],
    every one of them with a link text. *)
Fixpoint emit (acc : list NavLink) (cands : list NavLink) : list NavLink :=
  match cands with
  | [] => acc
  | c :: cands' =>
      if bool_decide (url c ∈ url <$> acc) then emit acc cands'
      else emit (acc ++ [c]) cands'
  end.

(** The scan state follows its list: a URL is in [seen_urls] exactly when a
    link of [navigation_links] has it. *)
Definition tracks (st : scan_state) : Prop :=
  ∃ seen : gset (list N),
    seen_urls st = Some seen ∧ ∀ u, u ∈ seen ↔ u ∈ url <$> navigation_links st.

(** A page without a cookie or privacy notice of more than 100 characters:
    the clean-up of lines 211-213 destroys nothing on it. *)
Definition quiet (html : node) : Prop :=
  Forall (λ found, (length found.2 ≤ 100)%nat)
         (cookie_strings
            (decompose_all [lit "script"; lit "style"; lit "nav"; lit "header"; lit "footer"]
                           html)).

(** The session as the specification describes it: the result of every
    page, failures included, in the order of the links. *)
Fixpoint page_results (nav_links : list NavLink) : M (list (gmap string PyVal)) :=
  match nav_links with
  | [] => mret []
  | link :: nav_links' =>
      doc ← crawl_single_page (url link) (Some (nav_text link)) 2;
      _ ← sleep 500;
      results ← page_results nav_links';
      mret (doc :: results)
  end.

(** A Document, as opposed to a failure record. *)
Definition is_document (doc : gmap string PyVal) : Prop := truthy (doc !! "error") = false.
End Reference.

#[global] Instance is_document_dec doc : Decision (is_document doc).
Proof. unfold is_document. apply _. Defined.

(** A TOC page with a what's-new section: an image link with no text, the
    same page twice more under two texts, and another page. *)
Definition whats_new_toc : node :=
  page [ el "h2" [] [txt "What's New"];
         el "ul" []
           [ el "li" [] [el "a" [("href", "/bundle/89303/page/a.html")] [el "img" [] []]];
             el "li" [] [el "a" [("href", "/bundle/89303/page/a.html")] [txt "Release notes"]];
             el "li" [] [el "a" [("href", "/bundle/89303/page/a.html")] [txt "Notes, again"]];
             el "li" [] [el "a" [("href", "/bundle/89303/page/b.html")] [txt "Installing"]] ];
         el "h2" [] [txt "Legal"];
         el "ul" []
           [ el "li" [] [el "a" [("href", "/bundle/89303/page/z.html")] [txt "Licences"]] ] ].

Definition page_a : str := lit "https://docs.motorolasolutions.com/bundle/89303/page/a.html".
Definition page_b : str := lit "https://docs.motorolasolutions.com/bundle/89303/page/b.html".

Definition whats_new_links : list NavLink :=
  [ {| url := page_a; nav_text := lit "Release notes" |};
    {| url := page_b; nav_text := lit "Installing" |} ].

(** The site behind that TOC: the TOC page first, then pages that read well. *)
Definition whats_new_web : World :=
  world (λ n _, match n with
                | O => fetch_ok "What's New" whats_new_toc
                | _ => fetch_ok "Alpha beta gamma" section_page
                end).

(** A TOC page without a what's-new heading: a plain list of the bundle's
    pages. *)
Definition list_toc : node :=
  page [ el "h1" [] [txt "Contents"];
         el "ul" []
           [ el "li" [] [el "a" [("href", "/bundle/89303/page/a.html")] [txt "Release notes"]];
             el "li" [] [el "a" [("href", "/bundle/89303/page/b.html")] [txt "Installing"]] ] ].

Definition list_web : World := world (λ _ _, fetch_ok "Contents" list_toc).

(** The same site on a bad day: the TOC page loads, the first three requests
    for pages time out, the later ones are answered. *)
Definition flaky_web : World :=
  world (λ n _, match n with
                | 0%nat => fetch_ok "What's New" whats_new_toc
                | 1%nat | 2%nat | 3%nat => fetch_failed "Timeout 45000ms exceeded"
                | _ => fetch_ok "Alpha beta gamma" section_page
                end).

(** The Document of page [b] on that site. *)
Definition document_b : gmap string PyVal :=
  document (lit "Installing") page_b (Some (lit "Installing"))
           (lit "Alpha beta gamma Next tail") (lit "2025-01-01T00:00:00").

(** A TOC page whose what's-new section lists ten pages, and its site. *)
Definition ten_toc : node :=
  page [ el "h2" [] [txt "What's new"];
         el "ul" []
           ((λ i, el "li" [] [el "a" [("href", "/bundle/89303/page/" +:+ i)] [txt i]])
              <$> ["0"; "1"; "2"; "3"; "4"; "5"; "6"; "7"; "8"; "9"]) ].

Definition ten_web : World :=
  world (λ n _, match n with
                | O => fetch_ok "What's new" ten_toc
                | _ => fetch_ok "Alpha beta gamma" section_page
                end).

(** ** Reading a run *)

(** The waits of a trace, in milliseconds, oldest first. *)
Definition slept (t : list event) : list N :=
  omap (λ e, match e with Sleep ms => Some ms | Fetch _ => None end) t.

(** The tags the clean-up of lines 207-208 destroys. *)
Definition noise : list str :=
  [lit "script"; lit "style"; lit "nav"; lit "header"; lit "footer"].

(** The children loops of [descendants], [decompose_all] and [prune_from],
    by name. *)
Fixpoint elements_from (i : nat) (l : list node) : list element :=
  match l with
  | [] => []
  | c :: l' =>
      {| e_path := [i]; e_node := c; e_next_siblings := l' |}
        :: (under i <$> descendants c) ++ elements_from (S i) l'
  end.

Fixpoint decompose_children (names : list str) (l : list node) : list node :=
  match l with
  | [] => []
  | c :: l' =>
      if name_in names c then decompose_children names l'
      else decompose_all names c :: decompose_children names l'
  end.

Fixpoint prune_children (here : path) (gone : list path) (i : nat) (l : list node)
  : list node :=
  match l with
  | [] => []
  | c :: l' =>
      if bool_decide (here ++ [i] ∈ gone) then prune_children here gone (S i) l'
      else prune_from (here ++ [i]) gone c :: prune_children here gone (S i) l'
  end.

Section Shapes.
Context {U : Unicode}.

(** A run of characters none of which is white space. *)
Definition word (s : str) : Prop := s ≠ [] ∧ Forall (λ c, isspace c = false) s.

(** Words with single spaces between them. *)
Definition normalized (s : str) : Prop := ∃ ws, s = join (lit " ") ws ∧ Forall word ws.
End Shapes.

(** ** [generate_descriptions], [save_documents] and [main] *)

(** What [prompt.format_messages] is given. *)
Record Prompt := { p_title : PyVal; p_nav_text : PyVal; p_content : PyVal }.

(** The language model: its answer to the [n]-th call, [None] when the call
    raises, and the calls made so far. *)
Record Studio := {
  llm : nat → Prompt → option str;
  asked : list Prompt
}.

Inductive describe_error :=
| KeyError (key : string)
| TypeError (what : string).

Inductive outcome (E A : Type) :=
| Returned (a : A)
| Raised (e : E).
Arguments Returned {E A} a.
Arguments Raised {E A} e.

(** [await llm.ainvoke(...)] *)
Definition ainvoke (p : Prompt) (st : Studio) : option str * Studio :=
  (llm st (length (asked st)) p, {| llm := llm st; asked := asked st ++ [p] |}).

(** Line 365: [doc["description"] = doc["content_snippet"][:200]]. *)
Definition fallback (doc : gmap string PyVal) : outcome describe_error (gmap string PyVal) :=
  match doc !! "content_snippet" with
  | Some (VStr s) => Returned (<["description" := VStr (take 200 s)]> doc)
  | Some _ => Raised (TypeError "content_snippet")
  | None => Raised (KeyError "content_snippet")
  end.

Section Descriptions.
Context {U : Unicode}.

(** Lines 352-365: one document.  The [print] of line 361 slices
    [doc['title']], which raises into the handler when the title is not a
    string. *)
Definition describe (doc : gmap string PyVal) (st : Studio)
  : outcome describe_error (gmap string PyVal) * Studio :=
  match doc !! "title", doc !! "content_snippet" with
  | Some title, Some content =>
      let p := {| p_title := title;
                  p_nav_text := default (VStr []) (doc !! "nav_text");
                  p_content := content |} in
      let '(response, st') := ainvoke p st in
      match response with
      | Some text =>
          let doc := <["description" := VStr (strip text)]> doc in
          match title with
          | VStr _ => (Returned doc, st')
          | _ => (fallback doc, st')
          end
      | None => (fallback doc, st')
      end
  | _, _ => (fallback doc, st)
  end.

(** Lines 351-368. *)
Fixpoint generate_descriptions (documents : list (gmap string PyVal)) (st : Studio)
  : outcome describe_error (list (gmap string PyVal)) * Studio :=
  match documents with
  | [] => (Returned [], st)
  | doc :: documents' =>
      match describe doc st with
      | (Returned doc', st') =>
          match generate_descriptions documents' st' with
          | (Returned described, st'') => (Returned (doc' :: described), st'')
          | (Raised e, st'') => (Raised e, st'')
          end
      | (Raised e, st') => (Raised e, st')
      end
  end.

(** What [main] runs on: the web, the language model, and the files written
    under [PROJECT_ROOT/data], each with the documents dumped into it.
    Failures of the file system are not modelled. *)
Record Host := {
  net : World;
  studio : Studio;
  files : list (string * list (gmap string PyVal))
}.

(** Lines 371-380. *)
Definition save_documents (documents : list (gmap string PyVal)) (filename : string)
           (h : Host) : Host :=
  {| net := net h; studio := studio h; files := files h ++ [(filename, documents)] |}.

(** How [main] ends. *)
Inductive main_exit :=
| Finished
| CrawlRaised (e : exn)
| DescribeRaised (e : describe_error)
| SummaryRaised (e : describe_error).

(** Lines 409-412: the keys the summary reads of a document. *)
Definition summary_line (doc : gmap string PyVal) : option describe_error :=
  match doc !! "title", doc !! "url", doc !! "description" with
  | Some _, Some _, Some _ => None
  | None, _, _ => Some (KeyError "title")
  | _, None, _ => Some (KeyError "url")
  | _, _, None => Some (KeyError "description")
  end.

Fixpoint summary (documents : list (gmap string PyVal)) : option describe_error :=
  match documents with
  | [] => None
  | doc :: documents' =>
      match summary_line doc with
      | Some e => Some e
      | None => summary documents'
      end
  end.

(** Lines 383-414. *)
Definition main (h : Host) : main_exit * Host :=
  match crawl_documentation_bundle toc_url (Some 10) (net h) with
  | (Raise e, w) => (CrawlRaised e, {| net := w; studio := studio h; files := files h |})
  | (Ok documents, w) =>
      let h := {| net := w; studio := studio h; files := files h |} in
      if bool_decide (documents = []) then (Finished, h)
      else
        match generate_descriptions documents (studio h) with
        | (Raised e, st) =>
            (DescribeRaised e, {| net := net h; studio := st; files := files h |})
        | (Returned documents, st) =>
            let h := save_documents documents "motorola_docs.json"
                       {| net := net h; studio := st; files := files h |} in
            match summary (take 3 documents) with
            | Some e => (SummaryRaised e, h)
            | None => (Finished, h)
            end
        end
  end.
End Descriptions.

(** A document with a title and a snippet to describe. *)
Definition describable (doc : gmap string PyVal) : Prop :=
  ∃ title snippet,
    doc !! "title" = Some (VStr title) ∧ doc !! "content_snippet" = Some (VStr snippet).

Definition prompt_of (doc : gmap string PyVal) : Prompt :=
  {| p_title := default VNone (doc !! "title");
     p_nav_text := default (VStr []) (doc !! "nav_text");
     p_content := default VNone (doc !! "content_snippet") |}.

(** A language model that answers every call, and one that is out of
    service. *)
Definition chatty : Studio :=
  {| llm := λ _ _, Some (lit " Explains how to install the product. "); asked := [] |}.

Definition mute : Studio := {| llm := λ _ _, None; asked := [] |}.

(** The Document of [section_page] crawled at [section_url]. *)
Definition section_document : gmap string PyVal :=
  document (lit "Unknown") section_url None (lit "Alpha beta gamma")
           (lit "2025-01-01T00:00:00").

(** A page with a passing mention of cookies, and a script. *)
Definition cookie_page : node :=
  page [ el "p" [] [txt "This site sets one cookie."];
         el "script" [] [txt "track()"];
         el "main" [] [el "p" [] [txt "Install the service."]] ].

(** [' — '], the separator of line 220. *)
Definition dash : str := [32; 8212; 32]%N.

(** The metadata of a page titled "Installing — VideoManager". *)
Definition titled : gmap (list N) (list N) :=
  {[ lit "title" := lit "Installing" ++ dash ++ lit "VideoManager" ]}.

(** Lines 292-295: the links a session goes through. *)
Definition limit (max_pages : option Z) (nav_links : list NavLink) : list NavLink :=
  match max_pages with
  | Some k => if k =? 0 then nav_links else slice_to k nav_links
  | None => nav_links
  end.

(** What a Document says of the link it was crawled from. *)
Definition crawled_from (doc : gmap string PyVal) (link : NavLink) : Prop :=
  doc !! "url" = Some (VStr (url link))
  ∧ doc !! "nav_text" = Some (VStr (nav_text link))
  ∧ doc !! "title" = Some (VStr (nav_text link)).

(** A machine that has run nothing yet, on a given site and model. *)
Definition host (w : World) (st : Studio) : Host :=
  {| net := w; studio := st; files := [] |}.

(** ** The effects of a run *)

Lemma bind_unfold {A B} (m : M A) (f : A → M B) (w : World) :
  (m ≫= f) w = match m w with
               | (Ok a, w') => f a w'
               | (Raise e, w') => (Raise e, w')
               end.
Proof. reflexivity. Qed.

Lemma fetched_log_fetch u w : fetched (trace (log (Fetch u) w)) = fetched (trace w) ++ [u].
Proof. unfold fetched; simpl. by rewrite omap_app. Qed.

Lemma fetched_log_sleep ms w : fetched (trace (log (Sleep ms) w)) = fetched (trace w).
Proof. unfold fetched; simpl. rewrite omap_app; simpl. by rewrite app_nil_r. Qed.

Lemma web_log e w : web (log e w) = web w.
Proof. reflexivity. Qed.

(** The retry loop fetches [url] and nothing else, at least once unless
    there is no attempt to make, and at most once per attempt. *)
Lemma retry_loop_fetched url max_retries attempts :
  ∀ last_error result w,
    ∃ k : nat,
      fetched (trace (retry_loop url max_retries attempts last_error result w).2)
        = fetched (trace w) ++ replicate k url
      ∧ (k ≤ length attempts)%nat
      ∧ (attempts ≠ [] → 1 ≤ k)%nat.
Proof.
  induction attempts as [|attempt attempts IH]; intros last_error result w.
  - exists 0%nat. simpl. rewrite app_nil_r. repeat split; [lia | done].
  - cbn [retry_loop]. rewrite bind_unfold. unfold arun at 1.
    set (r := web w _ url). set (w1 := log (Fetch url) w).
    assert (Hw1 : fetched (trace w1) = fetched (trace w) ++ [url])
      by apply fetched_log_fetch.
    clearbody w1 r.
    assert (Hstep : ∀ ms le,
      ∃ k : nat,
        fetched (trace ((_ ← sleep ms; retry_loop url max_retries attempts le (Some r)) w1).2)
          = fetched (trace w) ++ replicate k url
        ∧ (k ≤ length (attempt :: attempts))%nat ∧ (attempt :: attempts ≠ [] → 1 ≤ k)%nat).
    { intros ms le. rewrite bind_unfold. unfold sleep at 1.
      destruct (IH le (Some r) (log (Sleep ms) w1)) as (k & Hk & Hle & _).
      exists (S k). rewrite Hk, fetched_log_sleep, Hw1, <-app_assoc. simpl.
      repeat split; lia. }
    destruct (success r).
    + destruct (security_block (raw_markdown r)).
      * destruct (attempt <? max_retries); [apply Hstep|].
        exists 1%nat. simpl. rewrite Hw1. repeat split; lia.
      * exists 1%nat. simpl. rewrite Hw1. repeat split; lia.
    + destruct (attempt <? max_retries); [apply Hstep|].
      destruct (IH (error_message r) (Some r) w1) as (k & Hk & Hle & _).
      exists (S k). rewrite Hk, Hw1, <-app_assoc. simpl. repeat split; lia.
Qed.

(** Whatever the loop returns by itself is a failure record. *)
Lemma retry_loop_return url max_retries attempts :
  ∀ last_error result w d w',
    retry_loop url max_retries attempts last_error result w = (Ok (Return d), w') →
    d = error_dict url (lit "Security block (WAF/CDN)").
Proof.
  induction attempts as [|attempt attempts IH]; intros last_error result w d w'.
  - simpl. intros [=].
  - cbn [retry_loop]. rewrite bind_unfold. unfold arun at 1.
    set (r := web w _ url).
    destruct (success r).
    + destruct (security_block (raw_markdown r)).
      * destruct (attempt <? max_retries).
        -- rewrite bind_unfold. unfold sleep at 1. apply IH.
        -- intros [= <- _]. done.
      * intros [=].
    + destruct (attempt <? max_retries).
      * rewrite bind_unfold. unfold sleep at 1. apply IH.
      * apply IH.
Qed.

(** The loop raises nothing. *)
Lemma retry_loop_ok url max_retries attempts :
  ∀ last_error result w, ∃ exit, (retry_loop url max_retries attempts last_error result w).1 = Ok exit.
Proof.
  induction attempts as [|attempt attempts IH]; intros last_error result w.
  - by eexists.
  - cbn [retry_loop]. rewrite bind_unfold. unfold arun at 1.
    set (r := web w _ url).
    destruct (success r).
    + destruct (security_block (raw_markdown r)).
      * destruct (attempt <? max_retries); [|by eexists].
        rewrite bind_unfold. unfold sleep at 1. apply IH.
      * by eexists.
    + destruct (attempt <? max_retries); [|apply IH].
      rewrite bind_unfold. unfold sleep at 1. apply IH.
Qed.

Lemma truthy_error_dict url msg : truthy (error_dict url msg !! "error") = true.
Proof. reflexivity. Qed.

Lemma dom_error_dict url msg :
  dom (error_dict url msg) = ({[ "error"; "url"; "error_message" ]} : gset string).
Proof. unfold error_dict. rewrite !dom_insert_L, dom_singleton_L. set_solver. Qed.

(** One turn of the retry loop on a page that loads but is a security block. *)
Lemma retry_loop_blocked url max_retries attempt attempts last_error result w :
  let r := web w (length (fetched (trace w))) url in
  success r = true →
  security_block (raw_markdown r) = true →
  retry_loop url max_retries (attempt :: attempts) last_error result w =
    if attempt <? max_retries
    then retry_loop url max_retries attempts (Some (lit "Security block (WAF/CDN)"))
           (Some r) (log (Sleep 3000) (log (Fetch url) w))
    else (Ok (Return (error_dict url (lit "Security block (WAF/CDN)"))), log (Fetch url) w).
Proof.
  intros r Hs Hb. cbn [retry_loop]. rewrite bind_unfold. unfold arun at 1.
  fold r. rewrite Hs, Hb. by destruct (attempt <? max_retries).
Qed.

(** On a site that blocks every request the loop makes every attempt it has
    left and ends in the [return] of line 182. *)
Lemma retry_loop_all_blocked url max_retries (n : nat) :
  ∀ attempt last_error result w,
    (∀ i, success (web w i url) = true
          ∧ security_block (raw_markdown (web w i url)) = true) →
    attempt + Z.of_nat n = max_retries →
    ∃ w',
      retry_loop url max_retries (seqZ attempt (Z.of_nat (S n))) last_error result w
      = (Ok (Return (error_dict url (lit "Security block (WAF/CDN)"))), w')
      ∧ fetched (trace w') = fetched (trace w) ++ replicate (S n) url.
Proof.
  induction n as [|n IH]; intros attempt last_error result w Hblocked Hlast.
  - change (seqZ attempt (Z.of_nat 1)) with [attempt].
    rewrite retry_loop_blocked by apply Hblocked.
    rewrite (proj2 (Z.ltb_ge _ _)) by lia.
    eexists. split; [done|]. by rewrite fetched_log_fetch.
  - rewrite Nat2Z.inj_succ, seqZ_cons by lia.
    rewrite retry_loop_blocked by apply Hblocked.
    rewrite (proj2 (Z.ltb_lt _ _)) by lia.
    replace (Z.pred (Z.succ (Z.of_nat (S n)))) with (Z.of_nat (S n)) by lia.
    edestruct (IH (Z.succ attempt)) as (w' & -> & Hfetched);
      [intros i; rewrite !web_log; apply Hblocked|lia|].
    eexists. split; [done|].
    rewrite Hfetched, fetched_log_sleep, fetched_log_fetch, <-app_assoc. done.
Qed.

Section PageProperties.
Context {U : Unicode}.

(** Blocked at every attempt, a crawl fetches [max_retries + 1] times. *)
Lemma blocked_attempts url nav_text max_retries w :
  0 ≤ max_retries →
  (∀ n, success (web w n url) = true
        ∧ security_block (raw_markdown (web w n url)) = true) →
  ∃ w',
    crawl_single_page url nav_text max_retries w
    = (Ok (error_dict url (lit "Security block (WAF/CDN)")), w')
    ∧ fetched (trace w')
      = fetched (trace w) ++ replicate (Z.to_nat (max_retries + 1)) url.
Proof.
  intros Hpos Hblocked. unfold crawl_single_page. rewrite bind_unfold.
  destruct (retry_loop_all_blocked url max_retries (Z.to_nat max_retries) 0 None None w)
    as (w' & Hrun & Hfetched); [done|lia|].
  replace (Z.of_nat (S (Z.to_nat max_retries))) with (max_retries + 1) in Hrun by lia.
  rewrite Hrun. exists w'. split; [done|].
  rewrite Hfetched. f_equal. f_equal. lia.
Qed.

(** What [crawl_single_page] returns is a failure record or a Document,
    and it raises only out of the clean-up of lines 211-213. *)
Lemma crawl_single_page_returns url nav_text max_retries w d w' :
  crawl_single_page url nav_text max_retries w = (Ok d, w') →
  (∃ msg, d = error_dict url msg)
  ∨ (∃ title section_content crawled_at,
       d = document title url nav_text section_content crawled_at).
Proof.
  unfold crawl_single_page. rewrite bind_unfold.
  destruct (retry_loop _ _ _ _ _ w) as [[exit|e] w1] eqn:Hloop; [|intros [=]].
  destruct exit as [d0|last_error [result|]].
  - intros [= <- <-]. left. eexists. by eapply retry_loop_return.
  - destruct (success result).
    + rewrite bind_unfold. unfold lift at 1.
      destruct (clean (html result)) as [soup|e]; [|intros [=]].
      rewrite bind_unfold. unfold now_isoformat at 1.
      intros [= <- <-]. right. by do 3 eexists.
    + intros [= <- <-]. left. by eexists.
  - intros [= <- <-]. left. by eexists.
Qed.

(** C1.  Every Document [crawl_single_page] returns has
    [content_snippet == full_content[0:1500]], which is all of
    [full_content] when that is shorter and a prefix of it in any case, and
    [content_length == len(full_content)]. *)
Theorem snippet_invariant url nav_text max_retries w d w' :
  crawl_single_page url nav_text max_retries w = (Ok d, w') →
  truthy (d !! "error") = false →
  ∃ full_content : str,
    d !! "full_content" = Some (VStr full_content)
    ∧ d !! "content_snippet" = Some (VStr (take 1500 full_content))
    ∧ d !! "content_length" = Some (VInt (Z.of_nat (length full_content)))
    ∧ take 1500 full_content `prefix_of` full_content
    ∧ ((length full_content ≤ 1500)%nat → take 1500 full_content = full_content).
Proof.
  intros Hrun Hdoc.
  destruct (crawl_single_page_returns _ _ _ _ _ _ Hrun)
    as [[msg ->]|(title & content & crawled_at & ->)].
  - by rewrite truthy_error_dict in Hdoc.
  - exists content. repeat split.
    + apply prefix_take.
    + intros Hlen. by apply take_ge.
Qed.

(** When every fetch of [url] loads a security-block page, a crawl with
    [max_retries = 2] fetches three times, waits three seconds after the
    first and after the second, and returns the failure record. *)
Lemma blocked_run url nav_text w :
  (∀ n, success (web w n url) = true
        ∧ security_block (raw_markdown (web w n url)) = true) →
  crawl_single_page url nav_text 2 w =
    (Ok (error_dict url (lit "Security block (WAF/CDN)")),
     log (Fetch url) (log (Sleep 3000) (log (Fetch url) (log (Sleep 3000) (log (Fetch url) w))))).
Proof.
  intros Hblocked. unfold crawl_single_page. rewrite bind_unfold.
  change (seqZ 0 (2 + 1)) with [0; 1; 2].
  rewrite retry_loop_blocked by apply Hblocked. change (0 <? 2) with true. cbv iota.
  rewrite retry_loop_blocked by (rewrite !web_log; apply Hblocked).
  change (1 <? 2) with true. cbv iota.
  rewrite retry_loop_blocked by (rewrite !web_log; apply Hblocked).
  change (2 <? 2) with false. cbv iota. reflexivity.
Qed.

(** C2, as the code has it.  If every fetch attempt is a security block
    and [max_retries = 2], [crawl_single_page] makes exactly three fetch
    attempts and returns a failure record that carries the URL and the last
    failure reason, and nothing else: its keys are [error], [url] and
    [error_message]. *)
Theorem retry_exhaustion url nav_text w :
  (∀ n, success (web w n url) = true
        ∧ security_block (raw_markdown (web w n url)) = true) →
  ∃ d w',
    crawl_single_page url nav_text 2 w = (Ok d, w')
    ∧ fetched (trace w') = fetched (trace w) ++ [url; url; url]
    ∧ d !! "error" = Some (VBool true)
    ∧ d !! "url" = Some (VStr url)
    ∧ d !! "error_message" = Some (VStr (lit "Security block (WAF/CDN)"))
    ∧ dom d = {[ "error"; "url"; "error_message" ]}.
Proof.
  intros Hblocked. do 2 eexists. split; [by apply blocked_run|].
  split.
  { repeat (rewrite fetched_log_fetch || rewrite fetched_log_sleep).
    by rewrite <-!app_assoc. }
  repeat split.
Qed.
End PageProperties.

Lemma snippet_invariant_witness :
  ∃ full_content : str,
    document (lit "Unknown") section_url None (lit "Alpha beta gamma")
             (lit "2025-01-01T00:00:00") !! "full_content" = Some (VStr full_content)
    ∧ document (lit "Unknown") section_url None (lit "Alpha beta gamma")
               (lit "2025-01-01T00:00:00") !! "content_snippet"
      = Some (VStr (take 1500 full_content))
    ∧ document (lit "Unknown") section_url None (lit "Alpha beta gamma")
               (lit "2025-01-01T00:00:00") !! "content_length"
      = Some (VInt (Z.of_nat (length full_content)))
    ∧ take 1500 full_content `prefix_of` full_content
    ∧ ((length full_content ≤ 1500)%nat → take 1500 full_content = full_content).
Proof.
  apply (snippet_invariant (U := ascii_unicode) section_url None 2 section_web
           _ (log (Fetch section_url) section_web)).
  - vm_compute. reflexivity.
  - vm_compute. reflexivity.
Defined.

Lemma retry_exhaustion_witness :
  ∃ d w',
    crawl_single_page (U := ascii_unicode) section_url None 2 blocked_web = (Ok d, w')
    ∧ fetched (trace w') = fetched (trace blocked_web) ++ [section_url; section_url; section_url]
    ∧ d !! "error" = Some (VBool true)
    ∧ d !! "url" = Some (VStr section_url)
    ∧ d !! "error_message" = Some (VStr (lit "Security block (WAF/CDN)"))
    ∧ dom d = {[ "error"; "url"; "error_message" ]}.
Proof.
  apply (retry_exhaustion (U := ascii_unicode) section_url None blocked_web).
  intros n. split; vm_compute; reflexivity.
Defined.

(** C2 as the specification states it fails: the failure record does not
    carry the attempt count.  Blocked after three attempts and blocked after
    one give the same record, and no entry of it is the number 3. *)
Lemma failure_lacks_attempt_count :
  length (fetched (trace (crawl_single_page (U := ascii_unicode) section_url None 2 blocked_web).2)) = 3%nat
  ∧ length (fetched (trace (crawl_single_page (U := ascii_unicode) section_url None 0 blocked_web).2)) = 1%nat
  ∧ (crawl_single_page (U := ascii_unicode) section_url None 2 blocked_web).1
    = (crawl_single_page (U := ascii_unicode) section_url None 0 blocked_web).1
  ∧ (crawl_single_page (U := ascii_unicode) section_url None 2 blocked_web).1
    = Ok (error_dict section_url (lit "Security block (WAF/CDN)"))
  ∧ ¬ ∃ k, error_dict section_url (lit "Security block (WAF/CDN)") !! k = Some (VInt 3).
Proof.
  split; [vm_compute; reflexivity|].
  split; [vm_compute; reflexivity|].
  split; [vm_compute; reflexivity|].
  split; [vm_compute; reflexivity|].
  intros [k Hk]. unfold error_dict in Hk.
  repeat (apply lookup_insert_Some in Hk as [[_ [=]]|[_ Hk]]).
  apply lookup_singleton_Some in Hk as [_ [=]].
Qed.

(** ** Link discovery *)

Section Discovery.
Context {U : Unicode}.

Lemma extract_unfold toc_url w :
  extract_navigation_links toc_url w =
    let r := web w (length (fetched (trace w))) toc_url in
    (if negb (success r) then Ok []
     else match bundle_search toc_url with
          | None => Ok []
          | Some bundle_id => links_of_page bundle_id (html r)
          end,
     log (Fetch toc_url) w).
Proof.
  unfold extract_navigation_links. rewrite bind_unfold. unfold arun at 1. cbv zeta.
  destruct (negb _); [done|]. by destruct (bundle_search toc_url).
Qed.

(** C5, as the code has it.  When no bundle identifier can be read off the
    TOC URL, link extraction still fetches the page and then returns the
    empty list: an ordinary result, not an error. *)
Theorem no_bundle_id toc_url w :
  bundle_search toc_url = None →
  extract_navigation_links toc_url w = (Ok [], log (Fetch toc_url) w).
Proof.
  intros Hnone. rewrite extract_unfold. cbv zeta. rewrite Hnone.
  by destruct (negb _).
Qed.

(** What the fetch of the TOC page costs a session that gets no links. *)
Lemma bundle_unfold toc_url max_pages w :
  crawl_documentation_bundle toc_url max_pages w =
    match extract_navigation_links toc_url w with
    | (Ok nav_links, w1) =>
        if bool_decide (nav_links = []) then (Ok [], w1)
        else crawl_pages
               match max_pages with
               | Some k => if k =? 0 then nav_links else slice_to k nav_links
               | None => nav_links
               end [] w1
    | (Raise e, w1) => (Raise e, w1)
    end.
Proof.
  unfold crawl_documentation_bundle. rewrite bind_unfold.
  destruct (extract_navigation_links toc_url w) as [[nav_links|e] w1]; [|done].
  by destruct (bool_decide _).
Qed.

(** C6, as the code has it.  When the fetch of the TOC page fails, the
    session returns the empty list, an ordinary result, and the fetch of
    the TOC page is all it has done: no page is crawled. *)
Theorem toc_fetch_failure toc_url max_pages w :
  success (web w (length (fetched (trace w))) toc_url) = false →
  crawl_documentation_bundle toc_url max_pages w = (Ok [], log (Fetch toc_url) w).
Proof.
  intros Hfail. rewrite bundle_unfold, extract_unfold. cbv zeta.
  by rewrite Hfail.
Qed.
End Discovery.

Lemma no_bundle_id_witness :
  extract_navigation_links (U := ascii_unicode) plain_url empty_web
  = (Ok [], log (Fetch plain_url) empty_web).
Proof.
  apply (no_bundle_id (U := ascii_unicode) plain_url empty_web).
  vm_compute. reflexivity.
Defined.

(** C5 as the specification states it fails: a TOC URL without a bundle
    identifier gives no error.  The call raises nothing, and what it returns
    is what it returns for a well-formed TOC URL whose page has no links. *)
Lemma no_bundle_id_is_no_error :
  bundle_search (U := ascii_unicode) plain_url = None
  ∧ (¬ ∃ e, (extract_navigation_links (U := ascii_unicode) plain_url empty_web).1 = Raise e)
  ∧ bundle_search (U := ascii_unicode) toc_url = Some (lit "89303")
  ∧ (extract_navigation_links (U := ascii_unicode) plain_url empty_web).1
    = (extract_navigation_links (U := ascii_unicode) toc_url empty_web).1.
Proof.
  split; [vm_compute; reflexivity|]. split.
  - intros [e He]. vm_compute in He. discriminate.
  - split; vm_compute; reflexivity.
Qed.

Lemma toc_fetch_failure_witness :
  crawl_documentation_bundle (U := ascii_unicode) toc_url (Some 10) down_web
  = (Ok [], log (Fetch toc_url) down_web).
Proof.
  apply (toc_fetch_failure (U := ascii_unicode) toc_url (Some 10) down_web).
  vm_compute. reflexivity.
Defined.

(** C6 as the specification states it fails: a failed TOC fetch gives no
    error.  The session raises nothing, and what it returns is what it
    returns when the TOC page loads and has no links. *)
Lemma toc_fetch_failure_is_no_error :
  success (web down_web 0 toc_url) = false
  ∧ (¬ ∃ e, (crawl_documentation_bundle (U := ascii_unicode) toc_url (Some 10) down_web).1
            = Raise e)
  ∧ success (web empty_web 0 toc_url) = true
  ∧ (crawl_documentation_bundle (U := ascii_unicode) toc_url (Some 10) down_web).1
    = (crawl_documentation_bundle (U := ascii_unicode) toc_url (Some 10) empty_web).1.
Proof.
  split; [vm_compute; reflexivity|]. split.
  - intros [e He]. vm_compute in He. discriminate.
  - split; vm_compute; reflexivity.
Qed.

(** ** The scans and the links they keep *)

Section Scans.
Context {U : Unicode}.

Lemma consider_bound bundle_id link st seen :
  seen_urls st = Some seen →
  consider bundle_id link st =
    Ok match candidate bundle_id link with
       | Some c =>
           if bool_decide (url c ∉ seen) && bool_decide (nav_text c ≠ [])
           then {| seen_urls := Some ({[url c]} ∪ seen);
                   navigation_links := navigation_links st ++ [c] |}
           else st
       | None => st
       end.
Proof.
  intros Hseen. unfold consider, candidate.
  destruct (in_bundle _ _); [|done]. rewrite Hseen. cbn [url nav_text].
  by destruct (_ && _).
Qed.

Lemma consider_unbound bundle_id link st :
  seen_urls st = None →
  consider bundle_id link st =
    match candidate bundle_id link with
    | Some _ => Raise (UnboundLocalError "seen_urls")
    | None => Ok st
    end.
Proof.
  intros Hseen. unfold consider, candidate.
  destruct (in_bundle _ _); [|done]. by rewrite Hseen.
Qed.

Lemma named_candidates_cons bundle_id link links :
  named_candidates bundle_id (link :: links) =
    match candidate bundle_id link with
    | Some c =>
        if bool_decide (nav_text c ≠ []) then c :: named_candidates bundle_id links
        else named_candidates bundle_id links
    | None => named_candidates bundle_id links
    end.
Proof.
  unfold named_candidates, candidates. cbn [omap list_omap].
  destruct (candidate bundle_id link) as [c|]; [|done].
  rewrite filter_cons. by repeat case_decide; repeat case_bool_decide.
Qed.

(** With [seen_urls] bound, a run over anchors extends [navigation_links] as
    [emit] says. *)
Lemma consider_all_emit bundle_id links :
  ∀ st, tracks st →
    ∃ st', consider_all bundle_id links st = Ok st'
           ∧ tracks st'
           ∧ navigation_links st' =
               emit (navigation_links st) (named_candidates bundle_id links).
Proof.
  induction links as [|link links IH]; intros st Htracks.
  - exists st. by repeat split.
  - destruct Htracks as (seen & Hseen & Hin).
    cbn [consider_all]. rewrite (consider_bound _ _ _ _ Hseen), named_candidates_cons.
    destruct (candidate bundle_id link) as [c|]; [|by apply IH; exists seen].
    destruct (bool_decide (nav_text c ≠ [])) eqn:Hnamed.
    + cbn [emit]. destruct (decide (url c ∈ url <$> navigation_links st)) as [Hold|Hnew].
      * rewrite (bool_decide_eq_true_2 _ Hold).
        rewrite bool_decide_eq_false_2 by (rewrite Hin; tauto).
        cbn [andb]. by apply IH; exists seen.
      * rewrite (bool_decide_eq_false_2 _ Hnew).
        rewrite bool_decide_eq_true_2 by (by rewrite Hin).
        cbn [andb].
        edestruct IH as (st' & Hrun & Htr & Hlinks); [|exists st'; by repeat split].
        exists ({[url c]} ∪ seen). split; [done|]. cbn [navigation_links].
        intros u. rewrite fmap_app, elem_of_union, elem_of_singleton, elem_of_app, Hin.
        cbn. rewrite list_elem_of_singleton. tauto.
    + rewrite andb_false_r. by apply IH; exists seen.
Qed.

(** With [seen_urls] unbound, the first anchor of a bundle page raises. *)
Lemma consider_all_unbound bundle_id links :
  ∀ st, seen_urls st = None →
    consider_all bundle_id links st =
      if bool_decide (candidates bundle_id links = []) then Ok st
      else Raise (UnboundLocalError "seen_urls").
Proof.
  induction links as [|link links IH]; intros st Hseen; [done|].
  cbn [consider_all]. rewrite (consider_unbound _ _ _ Hseen).
  unfold candidates in *. cbn [omap list_omap].
  destruct (candidate bundle_id link); [done|]. by apply IH.
Qed.

Lemma consider_all_app bundle_id links1 links2 :
  ∀ st, consider_all bundle_id (links1 ++ links2) st =
          consider_all bundle_id links1 st ≫= consider_all bundle_id links2.
Proof.
  induction links1 as [|link links1 IH]; intros st; [done|].
  cbn [app consider_all]. destruct (consider bundle_id link st); [apply IH|done].
Qed.

Lemma scan_section_anchors bundle_id whats_new_section chain :
  ∀ st, scan_section bundle_id whats_new_section chain st =
          consider_all bundle_id (scanned whats_new_section chain ≫= find_links) st.
Proof.
  induction chain as [|current chain IH]; intros st; [done|].
  cbn [scan_section scanned]. destruct (_ && _); [done|].
  rewrite bind_cons, consider_all_app.
  destruct (consider_all bundle_id (find_links current) st); [apply IH|done].
Qed.

Lemma scan_list_items_anchors bundle_id lis :
  ∀ st, scan_list_items bundle_id lis st =
          consider_all bundle_id (omap (λ li, find_link (e_node li)) lis) st.
Proof.
  induction lis as [|li lis IH]; intros st; [done|].
  cbn [scan_list_items omap list_omap].
  destruct (find_link (e_node li)); [|apply IH].
  cbn [consider_all]. destruct (consider _ _ _); [apply IH|done].
Qed.

(** [emit] keeps the first entry of every URL that is new. *)
Lemma emit_new cands :
  ∀ acc, NoDup (url <$> acc) →
    ∃ new,
      emit acc cands = acc ++ new
      ∧ NoDup (url <$> (acc ++ new))
      ∧ new `sublist_of` cands
      ∧ (∀ c, c ∈ cands → url c ∈ url <$> (acc ++ new))
      ∧ (∀ l, l ∈ new →
           (url l ∉ url <$> acc)
           ∧ ∃ before later, cands = before ++ l :: later ∧ url l ∉ url <$> before).
Proof.
  induction cands as [|c cands IH]; intros acc Hnodup.
  - exists []. rewrite app_nil_r.
    split; [done|]. split; [done|]. split; [done|].
    split; intros x Hx; by apply elem_of_nil in Hx.
  - cbn [emit]. case_bool_decide as Hold.
    + destruct (IH acc Hnodup) as (new & Hemit & Hnd & Hsub & Hall & Hfirst).
      exists new.
      split; [done|]. split; [done|]. split; [by apply sublist_cons|]. split.
      * intros c' Hc'. apply elem_of_cons in Hc' as [->|Hc']; [|by apply Hall].
        rewrite fmap_app. apply elem_of_app. by left.
      * intros l Hl. destruct (Hfirst l Hl) as (Hfresh & before & later & -> & Hbefore).
        split; [done|]. exists (c :: before), later. split; [done|].
        rewrite fmap_cons, not_elem_of_cons. split; [|done].
        intros Heq. by rewrite Heq in Hfresh.
    + destruct (IH (acc ++ [c])) as (new & Hemit & Hnd & Hsub & Hall & Hfirst).
      { rewrite fmap_app. apply NoDup_app. split; [done|].
        split; [|apply NoDup_singleton].
        intros u Hu Hu'. apply list_elem_of_singleton in Hu'. by subst u. }
      assert (Hfresh : ∀ l, l ∈ new → (url l ∉ url <$> acc) ∧ url l ≠ url c).
      { intros l Hl. destruct (Hfirst l Hl) as [Hl' _].
        rewrite fmap_app, not_elem_of_app in Hl'. destruct Hl' as [? Hc].
        split; [done|]. intros Heq. apply Hc. rewrite Heq. apply list_elem_of_here. }
      exists (c :: new). rewrite Hemit, <-app_assoc.
      split; [done|]. split; [by rewrite <-app_assoc in Hnd|].
      split; [by apply sublist_skip|]. split.
      * intros c' Hc'. apply elem_of_cons in Hc' as [->|Hc'].
        -- rewrite fmap_app, fmap_cons. apply elem_of_app. right. apply list_elem_of_here.
        -- specialize (Hall c' Hc'). by rewrite <-app_assoc in Hall.
      * intros l Hl. apply elem_of_cons in Hl as [->|Hl].
        -- split; [done|]. exists [], cands. split; [done|]. apply not_elem_of_nil.
        -- destruct (Hfresh l Hl) as [Hacc Hc].
           split; [done|].
           destruct (Hfirst l Hl) as (_ & before & later & -> & Hbefore).
           exists (c :: before), later. split; [done|].
           rewrite fmap_cons, not_elem_of_cons. by split.
Qed.

Lemma emit_first_seen cands : first_seen_of cands (emit [] cands).
Proof.
  destruct (emit_new cands []) as (new & Hemit & Hnd & Hsub & Hall & Hfirst);
    [apply NoDup_nil_2|].
  rewrite Hemit. cbn [app] in *. repeat split; try done.
  intros l Hl. by destruct (Hfirst l Hl).
Qed.

Lemma emit_nil cands : emit [] cands = [] → cands = [].
Proof.
  destruct cands as [|c cands]; [done|]. cbn [emit fmap list_fmap].
  rewrite bool_decide_eq_false_2 by apply not_elem_of_nil.
  destruct (emit_new cands ([] ++ [c])) as (new & -> & _); [apply NoDup_singleton|].
  done.
Qed.

(** The links of a TOC page, scan by scan. *)
Lemma links_of_page_emit bundle_id soup :
  links_of_page bundle_id soup =
    match find_whats_new soup with
    | Some _ => Ok (emit [] (named_candidates bundle_id (scanned_anchors bundle_id soup)))
    | None =>
        if bool_decide (candidates bundle_id (list_item_anchors soup) = []) then Ok []
        else Raise (UnboundLocalError "seen_urls")
    end.
Proof.
  unfold links_of_page, scanned_anchors, section_anchors, list_item_anchors.
  destruct (find_whats_new soup) as [whats_new_section|].
  - rewrite scan_section_anchors.
    set (anchors := scanned _ _ ≫= find_links).
    destruct (consider_all_emit bundle_id anchors {| seen_urls := Some ∅; navigation_links := [] |})
      as (st & -> & Htracks & Hlinks).
    { exists ∅. split; [done|]. intros u. cbn. set_solver. }
    cbn [navigation_links] in Hlinks. cbn [mbind result_bind].
    case_bool_decide as Hnone.
    + rewrite Hlinks in Hnone. apply emit_nil in Hnone. rewrite Hnone.
      rewrite bool_decide_eq_true_2 by done.
      rewrite scan_list_items_anchors.
      destruct (consider_all_emit bundle_id
                  (omap (λ li, find_link (e_node li)) (find_all [lit "li"] soup)) st Htracks)
        as (st' & -> & _ & Hlinks').
      cbn [mbind result_bind]. rewrite Hlinks', Hlinks, Hnone. done.
    + rewrite Hlinks in Hnone.
      rewrite bool_decide_eq_false_2; [cbn [mbind result_bind]; by rewrite Hlinks|].
      intros Hnil. by rewrite Hnil in Hnone.
  - cbn [mbind result_bind navigation_links].
    rewrite bool_decide_eq_true_2 by done.
    rewrite scan_list_items_anchors, consider_all_unbound by done.
    by case_bool_decide.
Qed.

(** C7, as the code has it.  In every result of link extraction no two
    links have the same URL, the URL being the string the scan builds (the
    [href], with the site's origin in front unless it starts with [http]).
    Of the anchors that have a link text, the result keeps the first one of
    every URL, in the order in which the scan met them; an anchor without
    link text is passed over. *)
Theorem discovery_first_seen toc_url w links w' :
  extract_navigation_links toc_url w = (Ok links, w') →
  NoDup (url <$> links)
  ∧ ∀ bundle_id,
      success (web w (length (fetched (trace w))) toc_url) = true →
      bundle_search toc_url = Some bundle_id →
      first_seen_of
        (named_candidates bundle_id
           (scanned_anchors bundle_id (html (web w (length (fetched (trace w))) toc_url))))
        links.
Proof.
  rewrite extract_unfold. cbv zeta.
  set (r := web w _ toc_url). clearbody r.
  assert (Hpage : ∀ bundle_id, links_of_page bundle_id (html r) = Ok links →
    first_seen_of (named_candidates bundle_id (scanned_anchors bundle_id (html r))) links).
  { intros bundle_id. rewrite links_of_page_emit.
    destruct (find_whats_new (html r)) eqn:Hfind.
    - intros [= <-]. apply emit_first_seen.
    - case_bool_decide as Hnone; [|done]. intros [= <-].
      unfold scanned_anchors, section_anchors. rewrite Hfind.
      rewrite bool_decide_eq_true_2 by done.
      unfold named_candidates. rewrite Hnone.
      split; [|split; [done|split]].
      + apply NoDup_nil_2.
      + intros c Hc. by apply elem_of_nil in Hc.
      + intros l Hl. by apply elem_of_nil in Hl. }
  destruct (success r); cbn [negb].
  - destruct (bundle_search toc_url) as [bundle_id|].
    + intros [= Hlinks _]. split.
      * by destruct (Hpage _ Hlinks).
      * intros ? _ [= <-]. by apply Hpage.
    + intros [= <- _]. split; [apply NoDup_nil_2|done].
  - intros [= <- _]. split; [apply NoDup_nil_2|done].
Qed.

(** C4: what the code does where the specification promises the list-item
    links.  When the TOC page has no what's-new heading and a list item
    whose first link is a page of the bundle, link extraction raises
    [UnboundLocalError]: [seen_urls] is bound only by the section scan. *)
Theorem fallback_unbound toc_url w bundle_id :
  success (web w (length (fetched (trace w))) toc_url) = true →
  bundle_search toc_url = Some bundle_id →
  find_whats_new (html (web w (length (fetched (trace w))) toc_url)) = None →
  candidates bundle_id
    (list_item_anchors (html (web w (length (fetched (trace w))) toc_url))) ≠ [] →
  extract_navigation_links toc_url w
  = (Raise (UnboundLocalError "seen_urls"), log (Fetch toc_url) w).
Proof.
  intros Hok Hid Hfind Hsome. rewrite extract_unfold. cbv zeta.
  rewrite Hok, Hid, links_of_page_emit, Hfind. cbn [negb].
  by rewrite bool_decide_eq_false_2.
Qed.
End Scans.

Lemma discovery_first_seen_witness :
  NoDup (url <$> whats_new_links)
  ∧ ∀ bundle_id,
      success (web whats_new_web (length (fetched (trace whats_new_web))) toc_url) = true →
      bundle_search (U := ascii_unicode) toc_url = Some bundle_id →
      first_seen_of
        (named_candidates (U := ascii_unicode) bundle_id
           (scanned_anchors (U := ascii_unicode) bundle_id
              (html (web whats_new_web (length (fetched (trace whats_new_web))) toc_url))))
        whats_new_links.
Proof.
  apply (discovery_first_seen (U := ascii_unicode) toc_url whats_new_web whats_new_links
           (log (Fetch toc_url) whats_new_web)).
  vm_compute. reflexivity.
Defined.

(** C7 as the specification states it fails on the link text.  The first
    anchor of the section that points at page [a] has no text; the link
    extraction returns for [a] carries the text of the second one. *)
Lemma first_text_passed_over :
  (extract_navigation_links (U := ascii_unicode) toc_url whats_new_web).1 = Ok whats_new_links
  ∧ candidates (U := ascii_unicode) (lit "89303")
      (section_anchors (U := ascii_unicode) whats_new_toc)
    = [ {| url := page_a; nav_text := [] |};
        {| url := page_a; nav_text := lit "Release notes" |};
        {| url := page_a; nav_text := lit "Notes, again" |};
        {| url := page_b; nav_text := lit "Installing" |} ]
  ∧ ¬ first_seen_of
        (candidates (U := ascii_unicode) (lit "89303")
           (section_anchors (U := ascii_unicode) whats_new_toc))
        whats_new_links.
Proof.
  assert (Hcands : candidates (U := ascii_unicode) (lit "89303")
                     (section_anchors (U := ascii_unicode) whats_new_toc)
                   = [ {| url := page_a; nav_text := [] |};
                       {| url := page_a; nav_text := lit "Release notes" |};
                       {| url := page_a; nav_text := lit "Notes, again" |};
                       {| url := page_b; nav_text := lit "Installing" |} ])
    by (vm_compute; reflexivity).
  split; [vm_compute; reflexivity|]. split; [exact Hcands|].
  rewrite Hcands. intros (_ & _ & _ & Hfirst).
  destruct (Hfirst {| url := page_a; nav_text := lit "Release notes" |})
    as (before & later & Heq & Hbefore); [apply list_elem_of_here|].
  destruct before as [|c before].
  - by injection Heq.
  - injection Heq as <- _. apply Hbefore. apply list_elem_of_here.
Qed.

(** The URL is compared as a string: two addresses that differ in a final
    slash are two links. *)
Example trailing_slash_is_another_url :
  links_of_page (U := ascii_unicode) (lit "89303")
    (page [ el "h2" [] [txt "Whats new"];
            el "p" [] [el "a" [("href", "/bundle/89303/page/a")] [txt "Notes"]];
            el "p" [] [el "a" [("href", "/bundle/89303/page/a/")] [txt "Notes"]] ])
  = Ok [ {| url := lit "https://docs.motorolasolutions.com/bundle/89303/page/a";
            nav_text := lit "Notes" |};
         {| url := lit "https://docs.motorolasolutions.com/bundle/89303/page/a/";
            nav_text := lit "Notes" |} ].
Proof. vm_compute. reflexivity. Qed.

Lemma fallback_unbound_witness :
  extract_navigation_links (U := ascii_unicode) toc_url list_web
  = (Raise (UnboundLocalError "seen_urls"), log (Fetch toc_url) list_web).
Proof.
  apply (fallback_unbound (U := ascii_unicode) toc_url list_web (lit "89303")).
  - vm_compute. reflexivity.
  - vm_compute. reflexivity.
  - vm_compute. reflexivity.
  - vm_compute. discriminate.
Defined.

(** ** The session *)

Section Session.
Context {U : Unicode}.

(** The loop of lines 301-314 keeps the Documents among the page results. *)
Lemma crawl_pages_page_results nav_links :
  ∀ documents w,
    crawl_pages nav_links documents w =
      match page_results nav_links w with
      | (Ok results, w') => (Ok (documents ++ filter is_document results), w')
      | (Raise e, w') => (Raise e, w')
      end.
Proof.
  induction nav_links as [|link nav_links IH]; intros documents w.
  - cbn. by rewrite app_nil_r.
  - cbn [crawl_pages page_results]. rewrite !bind_unfold.
    destruct (crawl_single_page _ _ _ w) as [[doc|e] w1]; [|done].
    rewrite !bind_unfold. unfold sleep at 1 2. rewrite IH, bind_unfold.
    destruct (page_results nav_links _) as [[results|e] w2]; [|done].
    cbn. destruct (decide (is_document doc)) as [Hdoc|Hdoc];
      unfold is_document in Hdoc; destruct (truthy (doc !! "error")); try done.
    by rewrite <-app_assoc.
Qed.

(** C3, as the code has it.  A session returns the Documents among its page
    results, in the order of the links; the failure records are left out. *)
Theorem session_keeps_documents toc_url max_pages w nav_links w1 :
  extract_navigation_links toc_url w = (Ok nav_links, w1) →
  crawl_documentation_bundle toc_url max_pages w =
    match page_results
            match max_pages with
            | Some k => if k =? 0 then nav_links else slice_to k nav_links
            | None => nav_links
            end w1
    with
    | (Ok results, w') => (Ok (filter is_document results), w')
    | (Raise e, w') => (Raise e, w')
    end.
Proof.
  intros Hlinks. rewrite bundle_unfold, Hlinks.
  case_bool_decide as Hnone; [|apply crawl_pages_page_results].
  subst nav_links.
  assert (Hnil : ∀ k, slice_to k ([] : list NavLink) = [])
    by (intros k; unfold slice_to; destruct (0 <=? k); by rewrite take_nil).
  destruct max_pages as [k|]; [destruct (k =? 0); rewrite ?Hnil|]; done.
Qed.

(** A crawl with two retries fetches its URL one to three times, and
    nothing else. *)
Lemma crawl_single_page_fetched url nav_text w :
  ∃ k : nat,
    (1 ≤ k ≤ 3)%nat
    ∧ fetched (trace (crawl_single_page url nav_text 2 w).2)
      = fetched (trace w) ++ replicate k url.
Proof.
  unfold crawl_single_page. rewrite bind_unfold.
  change (seqZ 0 (2 + 1)) with [0; 1; 2].
  destruct (retry_loop_fetched url 2 [0; 1; 2] None None w) as (k & Hk & Hle & Hge).
  exists k. split; [cbn [length] in Hle; split; [by apply Hge|done]|].
  destruct (retry_loop url 2 [0; 1; 2] None None w) as [[exit|e] w1]; [|done].
  cbn [snd] in Hk. destruct exit as [d|last_error [result|]]; try done.
  destruct (success result); [|done].
  rewrite bind_unfold. unfold lift at 1.
  destruct (clean (html result)); [|done].
  by rewrite bind_unfold.
Qed.

(** The fetches of the loop over the links: link by link, each one to three
    times; all links are reached unless a crawl raises. *)
Lemma crawl_pages_fetched nav_links :
  ∀ documents w,
    ∃ counts : list nat,
      Forall (λ c, 1 ≤ c ≤ 3)%nat counts
      ∧ fetched (trace (crawl_pages nav_links documents w).2)
        = fetched (trace w)
          ++ concat (zip_with (λ link c, replicate c (url link)) nav_links counts)
      ∧ (length counts ≤ length nav_links)%nat
      ∧ (∀ docs, (crawl_pages nav_links documents w).1 = Ok docs →
           length counts = length nav_links).
Proof.
  induction nav_links as [|link nav_links IH]; intros documents w.
  - exists []. cbn. rewrite app_nil_r. by repeat split.
  - cbn [crawl_pages]. rewrite bind_unfold.
    destruct (crawl_single_page_fetched (url link) (Some (nav_text link)) w)
      as (k & Hk & Hfetched).
    destruct (crawl_single_page _ _ _ w) as [[doc|e] w1]; cbn [snd] in Hfetched.
    + rewrite bind_unfold. unfold sleep at 1.
      set (documents' := if truthy (doc !! "error") then _ else _).
      destruct (IH documents' (log (Sleep 500) w1)) as (counts & Hall & Hrest & Hlen & Hok).
      exists (k :: counts). split; [by constructor|].
      split; [|split; [cbn [length]; lia|]].
      * rewrite Hrest, fetched_log_sleep, Hfetched. cbn [zip_with concat].
        by rewrite <-!app_assoc.
      * intros docs Hdocs. cbn [length]. f_equal. by eapply Hok.
    + exists [k]. split; [by apply Forall_singleton|].
      split; [|split; [cbn [length]; lia|done]].
      cbn [snd]. rewrite Hfetched. destruct nav_links; cbn; by rewrite app_nil_r.
Qed.

Lemma web_retry_loop url max_retries attempts :
  ∀ last_error result w,
    web (retry_loop url max_retries attempts last_error result w).2 = web w.
Proof.
  induction attempts as [|attempt attempts IH]; intros last_error result w; [done|].
  cbn [retry_loop]. rewrite bind_unfold. unfold arun at 1.
  set (r := web w _ url). clearbody r.
  destruct (success r).
  - destruct (security_block (raw_markdown r)); [|done].
    destruct (attempt <? max_retries); [|done].
    rewrite bind_unfold. unfold sleep at 1. by rewrite IH.
  - destruct (attempt <? max_retries); [|by rewrite IH].
    rewrite bind_unfold. unfold sleep at 1. by rewrite IH.
Qed.

(** The result line 196 looks at, if there is one, is the answer to one of
    the loop's fetches. *)
Lemma retry_loop_result url max_retries attempts :
  ∀ last_error result w last_error' r w',
    retry_loop url max_retries attempts last_error result w
    = (Ok (Fallthrough last_error' (Some r)), w') →
    result = Some r ∨ ∃ n, r = web w n url.
Proof.
  induction attempts as [|attempt attempts IH]; intros last_error result w last_error' r w'.
  - intros [= _ -> _]. by left.
  - cbn [retry_loop]. rewrite bind_unfold. unfold arun at 1.
    set (r0 := web w _ url).
    assert (Hnext : ∀ le w0, web w0 = web w →
              retry_loop url max_retries attempts le (Some r0) w0
              = (Ok (Fallthrough last_error' (Some r)), w') →
              result = Some r ∨ ∃ n, r = web w n url).
    { intros le w0 Hweb Hrun. right.
      destruct (IH _ _ _ _ _ _ Hrun) as [[= <-]|[n ->]]; [by eexists|].
      exists n. by rewrite Hweb. }
    destruct (success r0).
    + destruct (security_block (raw_markdown r0)).
      * destruct (attempt <? max_retries); [|intros [=]].
        rewrite bind_unfold. unfold sleep at 1. by apply Hnext.
      * intros [= _ <- _]. right. by eexists.
    + destruct (attempt <? max_retries); [|by apply Hnext].
      rewrite bind_unfold. unfold sleep at 1. by apply Hnext.
Qed.

Lemma cookie_loop_quiet found :
  Forall (λ found, (length found.2 ≤ 100)%nat) found → cookie_loop found [] = Ok [].
Proof.
  induction 1 as [|[p text] found Hshort _ IH]; [done|].
  cbn [cookie_loop]. rewrite bool_decide_eq_false_2 by (rewrite Exists_nil; tauto).
  cbn [snd] in Hshort. by rewrite (proj2 (Z.ltb_ge 100 _)) by lia.
Qed.

Lemma clean_quiet html : quiet html → ∃ soup, clean html = Ok soup.
Proof. intros Hquiet. unfold clean. rewrite cookie_loop_quiet by done. by eexists. Qed.

(** On a site of quiet pages a crawl returns, and leaves the site as it
    was. *)
Lemma crawl_single_page_quiet url nav_text max_retries w :
  (∀ n, quiet (html (web w n url))) →
  ∃ doc w', crawl_single_page url nav_text max_retries w = (Ok doc, w') ∧ web w' = web w.
Proof.
  intros Hquiet. unfold crawl_single_page. rewrite bind_unfold.
  pose proof (web_retry_loop url max_retries (seqZ 0 (max_retries + 1)) None None w) as Hweb.
  pose proof (retry_loop_result url max_retries (seqZ 0 (max_retries + 1)) None None w) as Hres.
  destruct (retry_loop_ok url max_retries (seqZ 0 (max_retries + 1)) None None w) as [exit Hok].
  destruct (retry_loop _ _ _ _ _ w) as [r w1]. cbn [fst snd] in *. subst r.
  destruct exit as [d|last_error [result|]]; try by do 2 eexists.
  destruct (success result); [|by do 2 eexists].
  destruct (Hres _ _ _ eq_refl) as [[=]|[n ->]].
  destruct (clean_quiet _ (Hquiet n)) as [soup Hclean].
  rewrite bind_unfold. unfold lift at 1. rewrite Hclean, bind_unfold.
  by do 2 eexists.
Qed.

(** So does the loop over the links. *)
Lemma crawl_pages_quiet nav_links :
  ∀ documents w,
    (∀ n u, quiet (html (web w n u))) →
    ∃ docs w', crawl_pages nav_links documents w = (Ok docs, w').
Proof.
  induction nav_links as [|link nav_links IH]; intros documents w Hquiet.
  - by do 2 eexists.
  - cbn [crawl_pages]. rewrite bind_unfold.
    destruct (crawl_single_page_quiet (url link) (Some (nav_text link)) 2 w)
      as (doc & w1 & -> & Hweb); [done|].
    rewrite bind_unfold. unfold sleep at 1. apply IH.
    intros n u. rewrite web_log, Hweb. apply Hquiet.
Qed.

(** And so does the session, once the links are there. *)
Lemma crawl_documentation_bundle_quiet toc_url max_pages w nav_links w1 :
  extract_navigation_links toc_url w = (Ok nav_links, w1) →
  (∀ n u, quiet (html (web w n u))) →
  ∃ docs w', crawl_documentation_bundle toc_url max_pages w = (Ok docs, w').
Proof.
  intros Hlinks Hquiet. rewrite bundle_unfold, Hlinks.
  case_bool_decide; [by do 2 eexists|].
  apply crawl_pages_quiet. intros n u.
  rewrite extract_unfold in Hlinks. injection Hlinks as _ <-. apply Hquiet.
Qed.

Lemma length_slice_to {A} (k : Z) (l : list A) :
  0 < k → slice_to k l = take (Z.to_nat k) l.
Proof. intros Hk. unfold slice_to. by rewrite (proj2 (Z.leb_le 0 k)) by lia. Qed.


End Session.

Lemma session_keeps_documents_witness :
  crawl_documentation_bundle (U := ascii_unicode) toc_url None flaky_web =
    match page_results (U := ascii_unicode) whats_new_links (log (Fetch toc_url) flaky_web) with
    | (Ok results, w') => (Ok (filter is_document results), w')
    | (Raise e, w') => (Raise e, w')
    end.
Proof.
  apply (session_keeps_documents (U := ascii_unicode) toc_url None flaky_web
           whats_new_links (log (Fetch toc_url) flaky_web)).
  vm_compute. reflexivity.
Defined.

(** C3 as the specification states it fails: the session result is not the
    sequence of the page results.  Of two discovered pages the first times
    out on every attempt and the second is crawled; the session returns the
    one Document, and the failure record of the first page is not in it. *)
Lemma session_drops_failures :
  (extract_navigation_links (U := ascii_unicode) toc_url flaky_web).1 = Ok whats_new_links
  ∧ (page_results (U := ascii_unicode) whats_new_links (log (Fetch toc_url) flaky_web)).1
    = Ok [error_dict page_a (lit "Timeout 45000ms exceeded"); document_b]
  ∧ (crawl_documentation_bundle (U := ascii_unicode) toc_url None flaky_web).1
    = Ok [document_b]
  ∧ (crawl_documentation_bundle (U := ascii_unicode) toc_url None flaky_web).1
    ≠ (page_results (U := ascii_unicode) whats_new_links (log (Fetch toc_url) flaky_web)).1
  ∧ error_dict page_a (lit "Timeout 45000ms exceeded") ∉ [document_b].
Proof.
  assert (Hresults :
    (page_results (U := ascii_unicode) whats_new_links (log (Fetch toc_url) flaky_web)).1
    = Ok [error_dict page_a (lit "Timeout 45000ms exceeded"); document_b])
    by (vm_compute; reflexivity).
  assert (Hdocs :
    (crawl_documentation_bundle (U := ascii_unicode) toc_url None flaky_web).1
    = Ok [document_b])
    by (vm_compute; reflexivity).
  split; [vm_compute; reflexivity|].
  split; [exact Hresults|]. split; [exact Hdocs|]. split.
  - rewrite Hresults, Hdocs. intros [=].
  - intros Hin. apply list_elem_of_singleton in Hin.
    assert (Herr : error_dict page_a (lit "Timeout 45000ms exceeded") !! "error"
                   = document_b !! "error") by (by rewrite Hin).
    vm_compute in Herr. discriminate.
Qed.


(** Ten links and [max_pages = 3]: the first three are fetched, in order. *)
Example first_three_of_ten :
  (∃ nav_links,
     (extract_navigation_links (U := ascii_unicode) toc_url ten_web).1 = Ok nav_links
     ∧ length nav_links = 10%nat)
  ∧ fetched (trace (crawl_documentation_bundle (U := ascii_unicode) toc_url (Some 3)
                      ten_web).2)
    = [ toc_url;
        lit "https://docs.motorolasolutions.com/bundle/89303/page/0";
        lit "https://docs.motorolasolutions.com/bundle/89303/page/1";
        lit "https://docs.motorolasolutions.com/bundle/89303/page/2" ].
Proof.
  split; [|vm_compute; reflexivity].
  eexists. split; [vm_compute; reflexivity|reflexivity].
Qed.


(** With [max_pages = 0] both discovered pages are fetched. *)
Example zero_crawls_all :
  fetched (trace (crawl_documentation_bundle (U := ascii_unicode) toc_url (Some 0)
                    whats_new_web).2)
  = [toc_url; page_a; page_b].
Proof. vm_compute. reflexivity. Qed.

(** ** Content selection *)

Section Content.
Context {U : Unicode}.


End Content.


(** On that page the section reads "Alpha beta gamma": the heading and the
    paragraph after it are left out. *)
Example section_page_content :
  anchor_section (U := ascii_unicode) section_page section_url = Some (lit "Alpha beta gamma")
  ∧ select_content (U := ascii_unicode) section_page section_url = lit "Alpha beta gamma".
Proof. split; vm_compute; reflexivity. Qed.

(** ** More on the retry loop *)

Lemma fetched_app t1 t2 : fetched (t1 ++ t2) = fetched t1 ++ fetched t2.
Proof. apply omap_app. Qed.

Lemma slept_app t1 t2 : slept (t1 ++ t2) = slept t1 ++ slept t2.
Proof. apply omap_app. Qed.

(** One turn of the retry loop on a fetch that fails. *)
Lemma retry_loop_failed url max_retries attempt attempts last_error result w :
  let r := web w (length (fetched (trace w))) url in
  success r = false →
  retry_loop url max_retries (attempt :: attempts) last_error result w =
    retry_loop url max_retries attempts (error_message r) (Some r)
      (if attempt <? max_retries then log (Sleep 2000) (log (Fetch url) w)
       else log (Fetch url) w).
Proof.
  intros r Hs. cbn [retry_loop]. rewrite bind_unfold. unfold arun at 1.
  fold r. rewrite Hs. by destruct (attempt <? max_retries).
Qed.

(** One turn on a page that loads and is no security block. *)
Lemma retry_loop_loaded url max_retries attempt attempts last_error result w :
  let r := web w (length (fetched (trace w))) url in
  success r = true →
  security_block (raw_markdown r) = false →
  retry_loop url max_retries (attempt :: attempts) last_error result w
  = (Ok (Fallthrough last_error (Some r)), log (Fetch url) w).
Proof.
  intros r Hs Hb. cbn [retry_loop]. rewrite bind_unfold. unfold arun at 1.
  fold r. by rewrite Hs, Hb.
Qed.

(** What the loop adds to the trace when it has [n + 1] attempts to make:
    fetches of [url], one wait of two or three seconds before every fetch but
    the first, and nothing else. *)
Lemma retry_loop_events url max_retries (n : nat) :
  ∀ attempt last_error result w,
    attempt + Z.of_nat n = max_retries →
    ∃ (evs : list event) (k : nat),
      trace (retry_loop url max_retries (seqZ attempt (Z.of_nat (S n)))
               last_error result w).2 = trace w ++ evs
      ∧ fetched evs = replicate k url
      ∧ (1 ≤ k ≤ S n)%nat
      ∧ length (slept evs) = (k - 1)%nat
      ∧ Forall (λ ms, ms = 2000%N ∨ ms = 3000%N) (slept evs).
Proof.
  induction n as [|n IH]; intros attempt last_error result w Hlast.
  - change (seqZ attempt (Z.of_nat 1)) with [attempt].
    exists [Fetch url], 1%nat.
    assert (Hend : trace (retry_loop url max_retries [attempt] last_error result w).2
                   = trace w ++ [Fetch url]).
    { cbn [retry_loop]. rewrite bind_unfold. unfold arun at 1.
      rewrite (proj2 (Z.ltb_ge _ _)) by lia.
      destruct (success _); [by destruct (security_block _)|done]. }
    rewrite Hend. repeat split; (done || lia || by constructor).
  - rewrite Nat2Z.inj_succ, seqZ_cons by lia.
    replace (Z.pred (Z.succ (Z.of_nat (S n)))) with (Z.of_nat (S n)) by lia.
    assert (Hnext : ∀ ms le res,
      (ms = 2000%N ∨ ms = 3000%N) →
      ∃ (evs : list event) (k : nat),
        trace (retry_loop url max_retries (seqZ (Z.succ attempt) (Z.of_nat (S n))) le res
                 (log (Sleep ms) (log (Fetch url) w))).2 = trace w ++ evs
        ∧ fetched evs = replicate k url
        ∧ (1 ≤ k ≤ S (S n))%nat
        ∧ length (slept evs) = (k - 1)%nat
        ∧ Forall (λ ms, ms = 2000%N ∨ ms = 3000%N) (slept evs)).
    { intros ms le res Hms.
      destruct (IH (Z.succ attempt) le res (log (Sleep ms) (log (Fetch url) w)))
        as (evs & k & Htrace & Hfetched & Hk & Hslept & Hall); [lia|].
      exists (Fetch url :: Sleep ms :: evs), (S k).
      split; [rewrite Htrace; cbn [trace log]; by rewrite <-!app_assoc|].
      change (fetched (Fetch url :: Sleep ms :: evs)) with (url :: fetched evs).
      change (slept (Fetch url :: Sleep ms :: evs)) with (ms :: slept evs).
      split; [by rewrite Hfetched|].
      split; [lia|].
      split; [cbn [length]; rewrite Hslept; lia|].
      by constructor. }
    cbn [retry_loop]. rewrite bind_unfold. unfold arun at 1.
    rewrite (proj2 (Z.ltb_lt attempt max_retries)) by lia.
    destruct (success _).
    + destruct (security_block _).
      * rewrite bind_unfold. unfold sleep at 1. apply Hnext. by right.
      * exists [Fetch url], 1%nat. repeat split; (done || lia || by constructor).
    + rewrite bind_unfold. unfold sleep at 1. apply Hnext. by left.
Qed.

(** Where the result comes from that the loop hands to line 196 as a
    success: it is the answer to one of the loop's fetches, and no security
    block. *)
Lemma retry_loop_break url max_retries (n : nat) :
  ∀ attempt last_error result w last_error' r w',
    attempt + Z.of_nat n = max_retries →
    retry_loop url max_retries (seqZ attempt (Z.of_nat (S n))) last_error result w
    = (Ok (Fallthrough last_error' (Some r)), w') →
    success r = true →
    ∃ i, r = web w i url ∧ security_block (raw_markdown r) = false.
Proof.
  induction n as [|n IH]; intros attempt last_error result w last_error' r w' Hlast.
  - change (seqZ attempt (Z.of_nat 1)) with [attempt].
    cbn [retry_loop]. rewrite bind_unfold. unfold arun at 1.
    rewrite (proj2 (Z.ltb_ge _ _)) by lia.
    destruct (success (web w _ url)) eqn:Hs.
    + destruct (security_block (raw_markdown (web w _ url))) eqn:Hb; [intros [=]|].
      intros [= _ <- _] _. by eexists.
    + intros [= _ <- _] Hr. by rewrite Hs in Hr.
  - rewrite Nat2Z.inj_succ, seqZ_cons by lia.
    replace (Z.pred (Z.succ (Z.of_nat (S n)))) with (Z.of_nat (S n)) by lia.
    cbn [retry_loop]. rewrite bind_unfold. unfold arun at 1.
    rewrite (proj2 (Z.ltb_lt attempt max_retries)) by lia.
    assert (Hnext : ∀ ms le res,
      retry_loop url max_retries (seqZ (Z.succ attempt) (Z.of_nat (S n))) le res
        (log (Sleep ms) (log (Fetch url) w))
      = (Ok (Fallthrough last_error' (Some r)), w') →
      success r = true →
      ∃ i, r = web w i url ∧ security_block (raw_markdown r) = false).
    { intros ms le res Hrun Hr.
      assert (Hlast' : Z.succ attempt + Z.of_nat n = max_retries) by lia.
      destruct (IH _ _ _ _ _ _ _ Hlast' Hrun Hr) as (i & -> & Hb). by exists i. }
    destruct (success (web w _ url)) eqn:Hs.
    + destruct (security_block (raw_markdown (web w _ url))) eqn:Hb.
      * rewrite bind_unfold. unfold sleep at 1. apply Hnext.
      * intros [= _ <- _] _. by eexists.
    + rewrite bind_unfold. unfold sleep at 1. apply Hnext.
Qed.

(** When every fetch fails, the loop makes all its attempts, two seconds
    apart, and keeps the message of the last one. *)
Lemma retry_loop_all_failed url max_retries (n : nat) :
  ∀ attempt last_error result w,
    (∀ i, success (web w i url) = false) →
    attempt + Z.of_nat n = max_retries →
    ∃ w',
      retry_loop url max_retries (seqZ attempt (Z.of_nat (S n))) last_error result w
      = (Ok (Fallthrough
               (error_message (web w (length (fetched (trace w)) + n) url))
               (Some (web w (length (fetched (trace w)) + n) url))), w')
      ∧ trace w' = trace w ++ Fetch url :: concat (replicate n [Sleep 2000; Fetch url]).
Proof.
  induction n as [|n IH]; intros attempt last_error result w Hfail Hlast.
  - change (seqZ attempt (Z.of_nat 1)) with [attempt].
    rewrite retry_loop_failed by apply Hfail.
    rewrite (proj2 (Z.ltb_ge _ _)) by lia. rewrite Nat.add_0_r.
    by eexists.
  - rewrite Nat2Z.inj_succ, seqZ_cons by lia.
    replace (Z.pred (Z.succ (Z.of_nat (S n)))) with (Z.of_nat (S n)) by lia.
    rewrite retry_loop_failed by apply Hfail.
    rewrite (proj2 (Z.ltb_lt _ _)) by lia.
    edestruct (IH (Z.succ attempt)) as (w' & -> & Htrace);
      [intros i; rewrite !web_log; apply Hfail|lia|].
    exists w'. rewrite !web_log, fetched_log_sleep, fetched_log_fetch, length_app.
    cbn [length]. replace (length (fetched (trace w)) + 1 + n)%nat
      with (length (fetched (trace w)) + S n)%nat by lia.
    split; [done|]. rewrite Htrace. cbn [trace log replicate concat].
    by rewrite <-!app_assoc.
Qed.

Section PageRuns.
Context {U : Unicode}.

(** After the loop [crawl_single_page] adds nothing to the trace. *)
Lemma crawl_single_page_trace url nav_text max_retries w :
  trace (crawl_single_page url nav_text max_retries w).2
  = trace (retry_loop url max_retries (seqZ 0 (max_retries + 1)) None None w).2.
Proof.
  unfold crawl_single_page. rewrite bind_unfold.
  destruct (retry_loop _ _ _ _ _ w) as [[exit|e] w1]; [|done].
  destruct exit as [d|last_error [result|]]; try done.
  destruct (success result); [|done].
  rewrite bind_unfold. unfold lift at 1.
  destruct (clean (html result)); [|done].
  by rewrite bind_unfold.
Qed.

(** Every Document comes from a fetch of [url] that succeeded and is no
    security block, cleaned and read as lines 204-264 say. *)
Lemma crawl_single_page_document url nav_text max_retries w d w' :
  crawl_single_page url nav_text max_retries w = (Ok d, w') →
  is_document d →
  ∃ i soup crawled_at,
    success (web w i url) = true
    ∧ security_block (raw_markdown (web w i url)) = false
    ∧ clean (html (web w i url)) = Ok soup
    ∧ d = document (page_title nav_text (metadata (web w i url))) url nav_text
                   (select_content soup url) crawled_at.
Proof.
  unfold crawl_single_page, is_document. rewrite bind_unfold.
  destruct (decide (max_retries < 0)) as [Hneg|Hpos].
  { rewrite seqZ_nil by lia. cbn. intros [= <- _]. by rewrite truthy_error_dict. }
  replace (max_retries + 1) with (Z.of_nat (S (Z.to_nat max_retries))) by lia.
  destruct (retry_loop _ _ _ _ _ w) as [[exit|e] w1] eqn:Hloop; [|intros [=]].
  destruct exit as [d0|last_error [result|]].
  - intros [= <- _]. apply retry_loop_return in Hloop as ->.
    by rewrite truthy_error_dict.
  - destruct (success result) eqn:Hs.
    + apply retry_loop_break in Hloop as (i & -> & Hb); [|lia|done].
      rewrite bind_unfold. unfold lift at 1.
      destruct (clean (html (web w i url))) as [soup|e] eqn:Hclean; [|intros [=]].
      rewrite bind_unfold. unfold now_isoformat at 1.
      intros [= <- _] _. by exists i, soup, (clock w1 (length (trace w1))).
    + intros [= <- _]. by rewrite truthy_error_dict.
  - intros [= <- _]. by rewrite truthy_error_dict.
Qed.
End PageRuns.

Section PageOutcomes.
Context {U : Unicode}.

(** X1.  When every fetch of the page fails and [max_retries] is not
    negative, [crawl_single_page] fetches [max_retries + 1] times, waits two
    seconds between two fetches, and returns a failure record with the error
    message of the last fetch, or "Unknown error" when that fetch gave
    none. *)
Theorem network_exhaustion url nav_text max_retries w :
  0 ≤ max_retries →
  (∀ i, success (web w i url) = false) →
  ∃ w',
    crawl_single_page url nav_text max_retries w
    = (Ok (error_dict url
             (or_else
                (error_message
                   (web w (length (fetched (trace w)) + Z.to_nat max_retries) url))
                (lit "Unknown error"))), w')
    ∧ trace w'
      = trace w ++ Fetch url :: concat (replicate (Z.to_nat max_retries) [Sleep 2000; Fetch url]).
Proof.
  intros Hpos Hfail. unfold crawl_single_page. rewrite bind_unfold.
  replace (max_retries + 1) with (Z.of_nat (S (Z.to_nat max_retries))) by lia.
  destruct (retry_loop_all_failed url max_retries (Z.to_nat max_retries) 0 None None w)
    as (w' & -> & Htrace); [done|lia|].
  exists w'. by rewrite Hfail.
Qed.

(** X2.  With a negative [max_retries] the page is never fetched:
    [crawl_single_page] returns the failure record "Unknown error" and leaves
    the world as it was. *)
Theorem no_attempts url nav_text max_retries w :
  max_retries < 0 →
  crawl_single_page url nav_text max_retries w
  = (Ok (error_dict url (lit "Unknown error")), w).
Proof.
  intros Hneg. unfold crawl_single_page. rewrite bind_unfold.
  by rewrite seqZ_nil by lia.
Qed.

(** X3.  Whatever the site answers, a crawl fetches only its own URL, at
    least once and at most [max_retries + 1] times, waits exactly once
    between two fetches, two or three seconds each time, and does nothing
    else. *)
Theorem crawl_effort url nav_text max_retries w :
  0 ≤ max_retries →
  ∃ (evs : list event) (k : nat),
    trace (crawl_single_page url nav_text max_retries w).2 = trace w ++ evs
    ∧ fetched evs = replicate k url
    ∧ (1 ≤ k ≤ Z.to_nat max_retries + 1)%nat
    ∧ length (slept evs) = (k - 1)%nat
    ∧ Forall (λ ms, ms = 2000%N ∨ ms = 3000%N) (slept evs)
    ∧ length evs = (2 * k - 1)%nat.
Proof.
  intros Hpos. rewrite crawl_single_page_trace.
  replace (max_retries + 1) with (Z.of_nat (S (Z.to_nat max_retries))) by lia.
  destruct (retry_loop_events url max_retries (Z.to_nat max_retries) 0 None None w)
    as (evs & k & Htrace & Hfetched & Hk & Hslept & Hall); [lia|].
  exists evs, k. repeat split; try done; try lia.
  assert (Hlen : ∀ t, length t = (length (fetched t) + length (slept t))%nat).
  { induction t as [|[u|ms] t IHt]; [done| |].
    - change (fetched (Fetch u :: t)) with (u :: fetched t).
      change (slept (Fetch u :: t)) with (slept t). cbn [length]. lia.
    - change (fetched (Sleep ms :: t)) with (fetched t).
      change (slept (Sleep ms :: t)) with (ms :: slept t). cbn [length]. lia. }
  rewrite Hlen, Hfetched, Hslept, length_replicate. lia.
Qed.

(** X4.  A Document is built only from a fetch of its URL that succeeded
    and is no security block, and it carries the URL and the link text the
    crawl was called with, beside the six other fields. *)
Theorem document_provenance url nav_text max_retries w d w' :
  crawl_single_page url nav_text max_retries w = (Ok d, w') →
  is_document d →
  (∃ i, success (web w i url) = true
        ∧ security_block (raw_markdown (web w i url)) = false)
  ∧ d !! "url" = Some (VStr url)
  ∧ d !! "nav_text" = Some (from_option VStr VNone nav_text)
  ∧ d !! "source_type" = Some (VStr (lit "motorola_docs"))
  ∧ dom d = {[ "title"; "url"; "nav_text"; "content_snippet"; "full_content";
               "content_length"; "source_type"; "crawled_at" ]}.
Proof.
  intros Hrun Hdoc.
  destruct (crawl_single_page_document _ _ _ _ _ _ Hrun Hdoc)
    as (i & soup & crawled_at & Hs & Hb & _ & ->).
  split; [by exists i|]. repeat split.
Qed.

(** The words of a string are words. *)
Lemma words_go_words s :
  ∀ cur, Forall (λ c, isspace c = false) cur → Forall word (words_go cur s).
Proof.
  induction s as [|c s IH]; intros cur Hcur; cbn [words_go].
  - case_bool_decide; by repeat constructor.
  - destruct (isspace c) eqn:Hc.
    + apply Forall_app. split; [|by apply IH].
      case_bool_decide; by repeat constructor.
    + apply IH, Forall_app. by split; [|repeat constructor].
Qed.

Lemma normalize_ws_normalized s : normalized (normalize_ws s).
Proof. exists (split_ws s). split; [done|]. by apply words_go_words. Qed.

(** X5.  The [full_content] of every Document is white-space normalized: it
    is made of words, runs of characters that are not white space, with one
    space between two of them, and nothing before the first or after the
    last. *)
Theorem full_content_normalized url nav_text max_retries w d w' :
  crawl_single_page url nav_text max_retries w = (Ok d, w') →
  is_document d →
  ∃ full_content,
    d !! "full_content" = Some (VStr full_content) ∧ normalized full_content.
Proof.
  intros Hrun Hdoc.
  destruct (crawl_single_page_document _ _ _ _ _ _ Hrun Hdoc)
    as (i & soup & crawled_at & _ & _ & _ & ->).
  eexists. split; [done|]. apply normalize_ws_normalized.
Qed.

Lemma words_go_word w :
  Forall (λ c, isspace c = false) w →
  ∀ cur s, words_go cur (w ++ s) = words_go (cur ++ w) s.
Proof.
  induction 1 as [|c w Hc _ IH]; intros cur s.
  - by rewrite app_nil_r.
  - cbn [app words_go]. rewrite Hc, IH, <-app_assoc. done.
Qed.

Lemma join_nonspace ws :
  isspace 32%N = false → Forall word ws →
  Forall (λ c, isspace c = false) (join (lit " ") ws).
Proof.
  intros Hsp. induction 1 as [|w ws [_ Hw] _ IH]; [constructor|].
  destruct ws as [|w' ws]; [done|].
  change (join (lit " ") (w :: w' :: ws))
    with (w ++ 32%N :: join (lit " ") (w' :: ws)).
  apply Forall_app. split; [done|]. by constructor.
Qed.

Lemma split_join ws :
  isspace 32%N = true → Forall word ws → split_ws (join (lit " ") ws) = ws.
Proof.
  intros Hsp. unfold split_ws. induction 1 as [|w ws [Hne Hw] Hws IH]; [done|].
  destruct ws as [|w' ws].
  - cbn [join].
    replace (words_go [] w) with (words_go ([] ++ w) [])
      by (by rewrite <-words_go_word, app_nil_r).
    cbn [app words_go]. by rewrite bool_decide_eq_false_2.
  - change (join (lit " ") (w :: w' :: ws))
      with (w ++ 32%N :: join (lit " ") (w' :: ws)).
    rewrite words_go_word by done. cbn [app words_go].
    rewrite Hsp, bool_decide_eq_false_2 by done. cbn [app]. by rewrite IH.
Qed.

(** X6.  White-space normalization does nothing to a normalized string:
    done twice it gives what it gives done once. *)
Theorem normalize_ws_idempotent s : normalize_ws (normalize_ws s) = normalize_ws s.
Proof.
  destruct (normalize_ws_normalized s) as (ws & Hs & Hws). rewrite Hs.
  unfold normalize_ws at 1.
  destruct (isspace 32%N) eqn:Hsp; [by rewrite split_join|].
  pose proof (join_nonspace ws Hsp Hws) as Hjoin.
  unfold split_ws.
  replace (words_go [] (join (lit " ") ws))
    with (words_go ([] ++ join (lit " ") ws) [])
    by (by rewrite <-words_go_word, app_nil_r).
  cbn [app words_go].
  by case_bool_decide as Hnil; [rewrite Hnil|].
Qed.
End PageOutcomes.

Lemma network_exhaustion_witness :
  ∃ w',
    crawl_single_page (U := ascii_unicode) section_url None 2 down_web
    = (Ok (error_dict section_url
             (or_else
                (error_message
                   (web down_web (length (fetched (trace down_web)) + Z.to_nat 2) section_url))
                (lit "Unknown error"))), w')
    ∧ trace w'
      = trace down_web
        ++ Fetch section_url :: concat (replicate (Z.to_nat 2) [Sleep 2000; Fetch section_url]).
Proof.
  apply (network_exhaustion (U := ascii_unicode) section_url None 2 down_web).
  - lia.
  - intros i. reflexivity.
Defined.

Lemma no_attempts_witness :
  crawl_single_page (U := ascii_unicode) section_url None (-1) section_web
  = (Ok (error_dict section_url (lit "Unknown error")), section_web).
Proof.
  apply (no_attempts (U := ascii_unicode) section_url None (-1) section_web). lia.
Defined.

Lemma crawl_effort_witness :
  ∃ (evs : list event) (k : nat),
    trace (crawl_single_page (U := ascii_unicode) section_url None 2 blocked_web).2
    = trace blocked_web ++ evs
    ∧ fetched evs = replicate k section_url
    ∧ (1 ≤ k ≤ Z.to_nat 2 + 1)%nat
    ∧ length (slept evs) = (k - 1)%nat
    ∧ Forall (λ ms, ms = 2000%N ∨ ms = 3000%N) (slept evs)
    ∧ length evs = (2 * k - 1)%nat.
Proof.
  apply (crawl_effort (U := ascii_unicode) section_url None 2 blocked_web). lia.
Defined.

Lemma document_provenance_witness :
  (∃ i, success (web section_web i section_url) = true
        ∧ security_block (raw_markdown (web section_web i section_url)) = false)
  ∧ section_document !! "url" = Some (VStr section_url)
  ∧ section_document !! "nav_text" = Some (from_option VStr VNone None)
  ∧ section_document !! "source_type" = Some (VStr (lit "motorola_docs"))
  ∧ dom section_document
    = {[ "title"; "url"; "nav_text"; "content_snippet"; "full_content";
         "content_length"; "source_type"; "crawled_at" ]}.
Proof.
  apply (document_provenance (U := ascii_unicode) section_url None 2 section_web
           section_document (log (Fetch section_url) section_web)).
  - vm_compute. reflexivity.
  - vm_compute. reflexivity.
Defined.

Lemma full_content_normalized_witness :
  ∃ full_content,
    section_document !! "full_content" = Some (VStr full_content)
    ∧ normalized (U := ascii_unicode) full_content.
Proof.
  apply (full_content_normalized (U := ascii_unicode) section_url None 2 section_web
           section_document (log (Fetch section_url) section_web)).
  - vm_compute. reflexivity.
  - vm_compute. reflexivity.
Defined.

(** ** The page tree *)

(** Induction on a tree, with the property at hand for every child. *)
Lemma node_children_ind (P : node → Prop) :
  (∀ s, P (NavigableString s)) →
  (∀ s, P (Comment s)) →
  (∀ nm a cs, Forall P cs → P (Tag nm a cs)) →
  ∀ n, P n.
Proof.
  intros Hstring Hcomment Htag. fix IH 1. intros [s|s|nm a cs].
  - apply Hstring.
  - apply Hcomment.
  - apply Htag. induction cs as [|c cs IHcs]; constructor; [apply IH|exact IHcs].
Qed.

Lemma descendants_tag nm a cs : descendants (Tag nm a cs) = elements_from 0 cs.
Proof.
  cbn [descendants]. generalize 0%nat.
  induction cs as [|c cs IH]; intros i; [done|].
  cbn [elements_from]. by rewrite IH.
Qed.

Lemma decompose_all_tag names nm a cs :
  decompose_all names (Tag nm a cs) = Tag nm a (decompose_children names cs).
Proof.
  cbn [decompose_all]. f_equal.
  induction cs as [|c cs IH]; [done|].
  cbn [decompose_children]. by rewrite IH.
Qed.

Lemma prune_from_tag here gone nm a cs :
  prune_from here gone (Tag nm a cs) = Tag nm a (prune_children here gone 0 cs).
Proof.
  cbn [prune_from]. f_equal. generalize 0%nat.
  induction cs as [|c cs IH]; intros i; [done|].
  cbn [prune_children]. by rewrite IH.
Qed.

Lemma name_in_decompose_all names names' n :
  name_in names (decompose_all names' n) = name_in names n.
Proof. by destruct n. Qed.

Lemma name_in_prune_from names here gone n :
  name_in names (prune_from here gone n) = name_in names n.
Proof. by destruct n. Qed.

Lemma Forall_under (P : node → Prop) i l :
  Forall (λ e, P (e_node e)) (under i <$> l) ↔ Forall (λ e, P (e_node e)) l.
Proof. by rewrite Forall_fmap. Qed.

(** Once the tags of some names are destroyed, none is left below the root. *)
Lemma decompose_all_clears names n :
  Forall (λ e, name_in names (e_node e) = false) (descendants (decompose_all names n)).
Proof.
  induction n as [s|s|nm a cs IH] using node_children_ind; [constructor..|].
  rewrite decompose_all_tag, descendants_tag. generalize 0%nat.
  induction IH as [|c cs Hc _ IHcs]; intros i; [constructor|].
  cbn [decompose_children]. destruct (name_in names c) eqn:Hname; [apply IHcs|].
  cbn [elements_from]. constructor; [cbn [e_node]; by rewrite name_in_decompose_all|].
  apply Forall_app. split; [|apply IHcs].
  by apply (Forall_under (λ n, name_in names n = false)).
Qed.

(** Taking subtrees away brings no tag in. *)
Lemma prune_from_keeps names n :
  ∀ here gone,
    Forall (λ e, name_in names (e_node e) = false) (descendants n) →
    Forall (λ e, name_in names (e_node e) = false) (descendants (prune_from here gone n)).
Proof.
  induction n as [s|s|nm a cs IH] using node_children_ind; intros here gone; [done..|].
  rewrite prune_from_tag, !descendants_tag.
  assert (Hgen : ∀ i j k,
    Forall (λ e, name_in names (e_node e) = false) (elements_from i cs) →
    Forall (λ e, name_in names (e_node e) = false)
           (elements_from j (prune_children here gone k cs))); [|apply Hgen].
  induction IH as [|c cs Hc _ IHcs]; intros i j k; [done|].
  cbn [elements_from prune_children]. intros Hall.
  apply Forall_cons in Hall as [Hnode Hall]. apply Forall_app in Hall as [Hbelow Hrest].
  apply (Forall_under (λ n, name_in names n = false)) in Hbelow.
  case_bool_decide; [by eapply IHcs|].
  cbn [elements_from]. constructor; [cbn [e_node]; by rewrite name_in_prune_from|].
  apply Forall_app. split; [|by eapply IHcs].
  apply (Forall_under (λ n, name_in names n = false)). by apply Hc.
Qed.

(** With nothing to take away the tree stays as it is. *)
Lemma prune_from_nothing n : ∀ here, prune_from here [] n = n.
Proof.
  induction n as [s|s|nm a cs IH] using node_children_ind; intros here; [done..|].
  rewrite prune_from_tag. f_equal. generalize 0%nat.
  induction IH as [|c cs Hc _ IHcs]; intros i; [done|].
  cbn [prune_children]. rewrite bool_decide_eq_false_2 by apply not_elem_of_nil.
  by rewrite Hc, IHcs.
Qed.

Section CleanUp.
Context {U : Unicode}.

(** X7.  On the tree the clean-up hands on, no [script], [style], [nav],
    [header] or [footer] element is left, at any depth. *)
Theorem clean_removes_noise html soup :
  clean html = Ok soup →
  Forall (λ e, name_in noise (e_node e) = false) (descendants soup).
Proof.
  unfold clean. fold noise.
  destruct (cookie_loop _ []) as [gone|e]; [|intros [=]].
  cbn [mbind result_bind]. intros [= <-]. unfold prune.
  case_bool_decide.
  - destruct (decompose_all noise html); [apply decompose_all_clears with (n := NavigableString s)
                                          |apply decompose_all_clears with (n := Comment s)
                                          |constructor].
  - apply prune_from_keeps, decompose_all_clears.
Qed.

(** X8.  On a page whose strings that mention cookies or a privacy statement
    have at most 100 characters each, the clean-up destroys the five kinds
    of noise tags and nothing else. *)
Theorem clean_quiet_exact html :
  quiet html → clean html = Ok (decompose_all noise html).
Proof.
  intros Hquiet. unfold clean. fold noise. rewrite cookie_loop_quiet by done.
  cbn [mbind result_bind]. unfold prune.
  rewrite bool_decide_eq_false_2 by apply not_elem_of_nil.
  by rewrite prune_from_nothing.
Qed.

Lemma startswith_app p : ∀ s, startswith p s = true → ∃ r, s = p ++ r.
Proof.
  induction p as [|a p IH]; intros s; [by exists s|].
  destruct s as [|b s]; [done|]. cbn [startswith].
  intros [Hab Hps]%andb_true_iff. apply bool_decide_eq_true in Hab as ->.
  destruct (IH s Hps) as [r ->]. by exists r.
Qed.

Lemma startswith_app_l p : ∀ s t, startswith p s = true → startswith p (s ++ t) = true.
Proof.
  induction p as [|a p IH]; intros s t; [done|].
  destruct s as [|b s]; [done|]. cbn [startswith app].
  intros [Hab Hps]%andb_true_iff. by rewrite Hab, IH.
Qed.

(** [s.split(sep)[0]] is what comes before the first [sep] in [s]. *)
Lemma split_go_first sep s :
  sep ≠ [] →
  ∀ cur, contains sep s = true →
    ∃ p rest tl,
      split_go sep 0 cur s = (cur ++ p) :: tl
      ∧ s = p ++ sep ++ rest
      ∧ contains sep p = false.
Proof.
  intros Hsep. induction s as [|c s IH]; intros cur.
  - destruct sep; [done|]. by cbn.
  - cbn [split_go]. destruct (startswith sep (c :: s)) eqn:Hstart.
    + intros _. destruct (startswith_app _ _ Hstart) as [rest Hrest].
      exists [], rest, (split_go sep (length sep - 1) [] s).
      split; [by rewrite app_nil_r|].
      split; [exact Hrest|]. destruct sep; [done|reflexivity].
    + cbn [contains]. rewrite Hstart. cbn [orb]. intros Hin.
      destruct (IH (cur ++ [c]) Hin) as (p & rest & tl & -> & -> & Hp).
      exists (c :: p), rest, tl. rewrite <-app_assoc. split; [done|]. split; [done|].
      cbn [contains]. rewrite Hp, orb_false_r.
      destruct (startswith sep (c :: p)) eqn:Hcp; [|done].
      pose proof (startswith_app_l _ (c :: p) (sep ++ rest) Hcp) as Hlonger.
      cbn [app] in Hlonger. congruence.
Qed.

(** X9.  Without a link text, the title of a page whose metadata title has
    a [' — '] in it is what stands before the first one: the metadata title
    is the page title, the separator, and a rest, and the page title has no
    separator in it. *)
Theorem title_cut nav_text metadata title :
  nav_text = None ∨ nav_text = Some [] →
  metadata !! lit "title" = Some title →
  contains dash title = true →
  ∃ rest,
    title = page_title nav_text metadata ++ dash ++ rest
    ∧ contains dash (page_title nav_text metadata) = false.
Proof.
  intros Hnav Htitle Hdash.
  assert (Hpage : page_title nav_text metadata
                  = default [] (head (split_on dash title))).
  { unfold page_title, dash in *. rewrite Htitle. cbv zeta. cbn [from_option].
    unfold id. rewrite Hdash. by destruct Hnav as [-> | ->]. }
  rewrite Hpage. unfold split_on.
  destruct (split_go_first dash title ltac:(done) [] Hdash)
    as (p & rest & tl & -> & -> & Hp).
  by exists rest.
Qed.
End CleanUp.

Lemma clean_removes_noise_witness :
  Forall (λ e, name_in noise (e_node e) = false)
         (descendants (decompose_all noise cookie_page)).
Proof.
  apply (clean_removes_noise (U := ascii_unicode) cookie_page).
  vm_compute. reflexivity.
Defined.

Lemma clean_quiet_exact_witness :
  clean (U := ascii_unicode) cookie_page = Ok (decompose_all noise cookie_page).
Proof.
  apply (clean_quiet_exact (U := ascii_unicode) cookie_page).
  unfold quiet. apply (bool_decide_unpack _). vm_compute. exact I.
Defined.

Lemma title_cut_witness :
  ∃ rest,
    lit "Installing" ++ dash ++ lit "VideoManager"
    = page_title None titled ++ dash ++ rest
    ∧ contains dash (page_title None titled) = false.
Proof.
  apply (title_cut None titled).
  - by left.
  - vm_compute. reflexivity.
  - vm_compute. reflexivity.
Defined.

(** ** More on link discovery *)

Lemma contains_app_r sub p : ∀ s, contains sub s = true → contains sub (p ++ s) = true.
Proof.
  induction p as [|a p IH]; intros s Hs; [done|].
  cbn [app contains]. rewrite (IH s Hs). apply orb_true_r.
Qed.

Section MoreDiscovery.
Context {U : Unicode}.

Lemma digits_spec s :
  ∀ d r, digits s = (d, r) → s = d ++ r ∧ Forall (λ c, isdecimal c = true) d.
Proof.
  induction s as [|c s IH]; intros d r; cbn [digits].
  - intros [= <- <-]. by split.
  - destruct (isdecimal c) eqn:Hc.
    + destruct (digits s) as [d' r'] eqn:Hds. intros [= <- <-].
      destruct (IH d' r' eq_refl) as [-> Hd']. split; [done|by constructor].
    + intros [= <- <-]. by split.
Qed.

(** X10.  The bundle identifier read off a URL is a non-empty run of
    decimal digits that stands in the URL between [/bundle/] and a slash. *)
Theorem bundle_search_sound s bundle_id :
  bundle_search s = Some bundle_id →
  bundle_id ≠ []
  ∧ Forall (λ c, isdecimal c = true) bundle_id
  ∧ ∃ before later, s = before ++ lit "/bundle/" ++ bundle_id ++ lit "/" ++ later.
Proof.
  induction s as [|c s IH]; [done|].
  cbn [bundle_search].
  destruct (bundle_match_at (c :: s)) as [d|] eqn:Hat.
  - intros [= <-]. unfold bundle_match_at in Hat.
    destruct (startswith (lit "/bundle/") (c :: s)) eqn:Hstart; [|done].
    destruct (startswith_app _ _ Hstart) as [r0 Hr0]. rewrite Hr0 in Hat.
    change (drop 8 (lit "/bundle/" ++ r0)) with r0 in Hat.
    destruct (digits r0) as [d' r] eqn:Hdigits.
    destruct (digits_spec _ _ _ Hdigits) as [-> Hd'].
    destruct (bool_decide (d' ≠ [])) eqn:Hne; [|done].
    destruct (startswith (lit "/") r) eqn:Hslash; [|done].
    cbn [andb] in Hat. injection Hat as <-.
    destruct (startswith_app _ _ Hslash) as [later ->].
    split; [by apply bool_decide_eq_true in Hne|]. split; [done|].
    exists [], later. by rewrite Hr0.
  - intros Hs. destruct (IH Hs) as (Hne & Hd & before & later & ->).
    split; [done|]. split; [done|]. by exists (c :: before), later.
Qed.

(** What link extraction returns is picked, in order, from the named
    candidates of some anchors of the TOC page. *)
Lemma discovered_links toc_url w links w' :
  extract_navigation_links toc_url w = (Ok links, w') →
  links = []
  ∨ ∃ bundle_id anchors,
      bundle_search toc_url = Some bundle_id
      ∧ links `sublist_of` named_candidates bundle_id anchors.
Proof.
  rewrite extract_unfold. cbv zeta.
  destruct (success _); cbn [negb]; [|intros [= <- _]; by left].
  destruct (bundle_search toc_url) as [bundle_id|]; [|intros [= <- _]; by left].
  rewrite links_of_page_emit.
  destruct (find_whats_new _).
  - intros [= <- _]. right. eexists _, _. split; [done|].
    by destruct (emit_first_seen
                   (named_candidates bundle_id (scanned_anchors bundle_id
                      (html (web w (length (fetched (trace w))) toc_url)))))
      as (_ & Hsub & _).
  - case_bool_decide; [|done]. intros [= <- _]. by left.
Qed.

Lemma named_candidate bundle_id anchors c :
  c ∈ named_candidates bundle_id anchors →
  nav_text c ≠ []
  ∧ ∃ href, in_bundle bundle_id href = true ∧ url c = absolute href.
Proof.
  unfold named_candidates, candidates.
  intros [Hnamed Hc]%list_elem_of_filter. split; [done|].
  apply list_elem_of_omap in Hc as (link & _ & Hlink).
  unfold candidate in Hlink.
  destruct (in_bundle _ _) eqn:Hin; [|done]. injection Hlink as <-.
  by eexists.
Qed.

(** Every discovered link has a link text. *)
Lemma discovered_links_named toc_url w links w' :
  extract_navigation_links toc_url w = (Ok links, w') →
  Forall (λ l, nav_text l ≠ []) links.
Proof.
  intros Hrun. destruct (discovered_links _ _ _ _ Hrun)
    as [->|(bundle_id & anchors & _ & Hsub)]; [constructor|].
  apply Forall_forall. intros l Hl.
  by destruct (named_candidate bundle_id anchors l); [eapply elem_of_sublist|].
Qed.

(** X11.  Every link that link extraction returns has a link text and a
    URL that starts with [http] and has [/bundle/<id>/page/] in it, for the
    bundle identifier of the TOC URL. *)
Theorem links_well_formed toc_url w links w' :
  extract_navigation_links toc_url w = (Ok links, w') →
  Forall (λ l,
            nav_text l ≠ []
            ∧ startswith (lit "http") (url l) = true
            ∧ ∃ bundle_id,
                bundle_search toc_url = Some bundle_id
                ∧ contains (lit "/bundle/" ++ bundle_id ++ lit "/page/") (url l) = true)
         links.
Proof.
  intros Hrun. destruct (discovered_links _ _ _ _ Hrun)
    as [->|(bundle_id & anchors & Hid & Hsub)]; [constructor|].
  apply Forall_forall. intros l Hl.
  destruct (named_candidate bundle_id anchors l) as (Hnamed & href & Hin & ->);
    [by eapply elem_of_sublist|].
  split; [done|]. unfold in_bundle in Hin. apply andb_true_iff in Hin as [Hin _].
  unfold absolute. split.
  - destruct (startswith (lit "http") href) eqn:Hhttp; [done|].
    by apply (startswith_app_l (lit "http") (lit "https://docs.motorolasolutions.com")).
  - exists bundle_id. split; [done|].
    destruct (startswith (lit "http") href); [done|]. by apply contains_app_r.
Qed.

(** X12.  Link extraction raises in one situation only: the TOC page has
    loaded, its URL has a bundle identifier, no heading says "what's new",
    and the first link of some list item is a page of the bundle.  In every
    other case it returns a list. *)
Theorem extraction_raises_iff toc_url w :
  (∃ e, (extract_navigation_links toc_url w).1 = Raise e)
  ↔ success (web w (length (fetched (trace w))) toc_url) = true
    ∧ ∃ bundle_id,
        bundle_search toc_url = Some bundle_id
        ∧ find_whats_new (html (web w (length (fetched (trace w))) toc_url)) = None
        ∧ candidates bundle_id
            (list_item_anchors (html (web w (length (fetched (trace w))) toc_url))) ≠ [].
Proof.
  rewrite extract_unfold. cbv zeta. cbn [fst].
  destruct (success _); cbn [negb].
  - destruct (bundle_search toc_url) as [bundle_id|].
    + rewrite links_of_page_emit.
      destruct (find_whats_new _) as [heading|].
      * split; [by intros [e [=]]|]. by intros (_ & id & _ & [=] & _).
      * case_bool_decide as Hnone.
        -- split; [by intros [e [=]]|]. intros (_ & id & [= <-] & _ & Hsome). done.
        -- split; [|by eexists]. intros _. split; [done|]. by exists bundle_id.
    + split; [by intros [e [=]]|]. by intros (_ & id & [=] & _).
  - split; [by intros [e [=]]|]. by intros [[=] _].
Qed.
End MoreDiscovery.

Lemma bundle_search_sound_witness :
  lit "89303" ≠ []
  ∧ Forall (λ c, isdecimal (Unicode := ascii_unicode) c = true) (lit "89303")
  ∧ ∃ before later, toc_url = before ++ lit "/bundle/" ++ lit "89303" ++ lit "/" ++ later.
Proof.
  apply (bundle_search_sound (U := ascii_unicode) toc_url (lit "89303")).
  vm_compute. reflexivity.
Defined.

Lemma links_well_formed_witness :
  Forall (λ l,
            nav_text l ≠ []
            ∧ startswith (lit "http") (url l) = true
            ∧ ∃ bundle_id,
                bundle_search (U := ascii_unicode) toc_url = Some bundle_id
                ∧ contains (lit "/bundle/" ++ bundle_id ++ lit "/page/") (url l) = true)
         whats_new_links.
Proof.
  apply (links_well_formed (U := ascii_unicode) toc_url whats_new_web whats_new_links
           (log (Fetch toc_url) whats_new_web)).
  vm_compute. reflexivity.
Defined.

(** ** More on the session *)

Lemma limit_sublist max_pages nav_links : limit max_pages nav_links `sublist_of` nav_links.
Proof.
  unfold limit, slice_to. destruct max_pages as [k|]; [|done].
  destruct (k =? 0); [done|]. destruct (0 <=? k); apply sublist_take.
Qed.

Lemma filter_no_500 (l : list N) :
  Forall (λ ms, ms = 2000%N ∨ ms = 3000%N) l → filter (λ ms, ms = 500%N) l = [].
Proof.
  induction 1 as [|ms l Hms _ IH]; [done|].
  rewrite filter_cons, IH. by destruct Hms as [-> | ->].
Qed.

Lemma Forall2_filter_sublist {A B} (P : A → Prop) `{∀ x, Decision (P x)}
      (Q : A → B → Prop) rs ls :
  Forall2 (λ r l, P r → Q r l) rs ls →
  ∃ kept, kept `sublist_of` ls ∧ Forall2 Q (filter P rs) kept.
Proof.
  induction 1 as [|r l rs ls Hrl _ (kept & Hsub & Hkept)]; [by exists []|].
  rewrite filter_cons. case_decide.
  - exists (l :: kept). split; [by apply sublist_skip|]. constructor; [by apply Hrl|done].
  - exists kept. split; [by apply sublist_cons|done].
Qed.

Section MoreSession.
Context {U : Unicode}.

Lemma session_unfold toc_url max_pages w nav_links w1 :
  extract_navigation_links toc_url w = (Ok nav_links, w1) →
  crawl_documentation_bundle toc_url max_pages w
  = crawl_pages (limit max_pages nav_links) [] w1.
Proof.
  intros Hlinks. rewrite bundle_unfold, Hlinks. fold (limit max_pages nav_links).
  case_bool_decide as Hnone; [|done]. subst nav_links.
  pose proof (limit_sublist max_pages []) as Hsub.
  apply sublist_nil_r in Hsub. by rewrite Hsub.
Qed.

(** The waits of one crawl are of two or three seconds. *)
Lemma crawl_single_page_sleeps url nav_text w :
  ∃ evs,
    trace (crawl_single_page url nav_text 2 w).2 = trace w ++ evs
    ∧ Forall (λ ms, ms = 2000%N ∨ ms = 3000%N) (slept evs).
Proof.
  rewrite crawl_single_page_trace.
  destruct (retry_loop_events url 2 2 0 None None w)
    as (evs & k & Htrace & _ & _ & _ & Hall); [done|].
  by exists evs.
Qed.

Lemma crawl_pages_events nav_links :
  ∀ documents w docs w',
    crawl_pages nav_links documents w = (Ok docs, w') →
    ∃ evs,
      trace w' = trace w ++ evs
      ∧ length (filter (λ ms, ms = 500%N) (slept evs)) = length nav_links
      ∧ Forall (λ ms, ms = 500%N ∨ ms = 2000%N ∨ ms = 3000%N) (slept evs).
Proof.
  induction nav_links as [|link nav_links IH]; intros documents w docs w'.
  - intros [= _ <-]. exists []. by rewrite app_nil_r.
  - cbn [crawl_pages]. rewrite bind_unfold.
    destruct (crawl_single_page_sleeps (url link) (Some (nav_text link)) w)
      as (evs1 & Htrace1 & Hall1).
    destruct (crawl_single_page _ _ _ w) as [[doc|e] w1]; [|intros [=]].
    cbn [snd] in Htrace1. rewrite bind_unfold. unfold sleep at 1. intros Hrest.
    destruct (IH _ _ _ _ Hrest) as (evs2 & -> & Hcount & Hall2).
    exists (evs1 ++ Sleep 500 :: evs2).
    split; [cbn [trace log]; by rewrite Htrace1, <-!app_assoc|].
    rewrite slept_app. change (slept (Sleep 500 :: evs2)) with (500%N :: slept evs2).
    split.
    + rewrite filter_app, filter_no_500, filter_cons by done.
      rewrite decide_True by done. cbn [app length]. by rewrite Hcount.
    + apply Forall_app. split; [|constructor; [by left|done]].
      eapply Forall_impl; [exact Hall1|]. intros ms [-> | ->]; auto.
Qed.

(** X13.  A session that returns has waited half a second after every page
    it went through, the last one included, and its other waits are the two
    and three seconds of the retries. *)
Theorem politeness toc_url max_pages w nav_links w1 docs w' :
  extract_navigation_links toc_url w = (Ok nav_links, w1) →
  crawl_documentation_bundle toc_url max_pages w = (Ok docs, w') →
  ∃ evs,
    trace w' = trace w1 ++ evs
    ∧ length (filter (λ ms, ms = 500%N) (slept evs)) = length (limit max_pages nav_links)
    ∧ Forall (λ ms, ms = 500%N ∨ ms = 2000%N ∨ ms = 3000%N) (slept evs).
Proof.
  intros Hlinks. rewrite (session_unfold _ _ _ _ _ Hlinks). apply crawl_pages_events.
Qed.

(** The results of the pages, one for each link: a Document says where it
    comes from. *)
Lemma page_results_shape nav_links :
  Forall (λ l, nav_text l ≠ []) nav_links →
  ∀ w results w',
    page_results nav_links w = (Ok results, w') →
    Forall2 (λ r l, is_document r → crawled_from r l) results nav_links.
Proof.
  induction 1 as [|link nav_links Hnamed _ IH]; intros w results w'.
  - intros [= <- _]. constructor.
  - cbn [page_results]. rewrite bind_unfold.
    destruct (crawl_single_page _ _ _ w) as [[doc|e] w1] eqn:Hpage; [|intros [=]].
    rewrite bind_unfold. unfold sleep at 1. rewrite bind_unfold.
    destruct (page_results nav_links _) as [[results'|e] w2] eqn:Hrest; [|intros [=]].
    intros [= <- _]. constructor; [|by eapply IH].
    intros Hdoc.
    destruct (crawl_single_page_document _ _ _ _ _ _ Hpage Hdoc)
      as (i & soup & crawled_at & _ & _ & _ & ->).
    unfold page_title. destruct (nav_text link) as [|c t] eqn:Htext; [done|].
    unfold crawled_from. rewrite Htext. by repeat split.
Qed.

(** X14.  The Documents a session returns come from discovered links, in
    discovery order and at most one from a link: each has the URL of its
    link, and the link's text as [nav_text] and as title. *)
Theorem documents_follow_links toc_url max_pages w nav_links w1 docs w' :
  extract_navigation_links toc_url w = (Ok nav_links, w1) →
  crawl_documentation_bundle toc_url max_pages w = (Ok docs, w') →
  ∃ kept,
    kept `sublist_of` nav_links
    ∧ Forall2 crawled_from docs kept.
Proof.
  intros Hlinks. rewrite (session_unfold _ _ _ _ _ Hlinks), crawl_pages_page_results.
  destruct (page_results _ w1) as [[results|e] w2] eqn:Hresults; [|intros [=]].
  intros [= <- _].
  pose proof (limit_sublist max_pages nav_links) as Hsub.
  assert (Hnamed : Forall (λ l, nav_text l ≠ []) (limit max_pages nav_links)).
  { apply Forall_forall. intros l Hl.
    pose proof (discovered_links_named _ _ _ _ Hlinks) as Hall.
    rewrite Forall_forall in Hall. apply Hall. by eapply elem_of_sublist. }
  pose proof (page_results_shape _ Hnamed _ _ _ Hresults) as Hshape.
  destruct (Forall2_filter_sublist is_document crawled_from _ _ Hshape)
    as (kept & Hkept & Hdocs).
  exists kept. split; [by etrans|done].
Qed.

End MoreSession.

Lemma politeness_witness :
  ∃ evs,
    trace (crawl_documentation_bundle (U := ascii_unicode) toc_url None flaky_web).2
    = trace (log (Fetch toc_url) flaky_web) ++ evs
    ∧ length (filter (λ ms, ms = 500%N) (slept evs)) = length (limit None whats_new_links)
    ∧ Forall (λ ms, ms = 500%N ∨ ms = 2000%N ∨ ms = 3000%N) (slept evs).
Proof.
  apply (politeness (U := ascii_unicode) toc_url None flaky_web whats_new_links
           (log (Fetch toc_url) flaky_web) [document_b]).
  - vm_compute. reflexivity.
  - vm_compute. reflexivity.
Defined.

Lemma documents_follow_links_witness :
  ∃ kept,
    kept `sublist_of` whats_new_links
    ∧ Forall2 crawled_from [document_b] kept.
Proof.
  apply (documents_follow_links (U := ascii_unicode) toc_url None flaky_web whats_new_links
           (log (Fetch toc_url) flaky_web) [document_b]
           (crawl_documentation_bundle (U := ascii_unicode) toc_url None flaky_web).2).
  - vm_compute. reflexivity.
  - vm_compute. reflexivity.
Defined.


(** ** Descriptions *)

Section DescriptionProperties.
Context {U : Unicode}.

(** A document with a title and a snippet gets its description from the
    model's answer, or from the snippet when the call fails; the model is
    asked once. *)
Lemma describe_describable doc st title snippet :
  doc !! "title" = Some (VStr title) →
  doc !! "content_snippet" = Some (VStr snippet) →
  describe doc st
  = (Returned (<["description" :=
                   VStr match llm st (length (asked st)) (prompt_of doc) with
                        | Some text => strip text
                        | None => take 200 snippet
                        end]> doc),
     {| llm := llm st; asked := asked st ++ [prompt_of doc] |}).
Proof.
  intros Htitle Hsnippet. unfold describe, ainvoke, prompt_of.
  rewrite Htitle, Hsnippet. cbn [default from_option id].
  destruct (llm st _ _); [done|].
  unfold fallback. by rewrite Hsnippet.
Qed.

Lemma generate_descriptions_returns documents :
  ∀ st, Forall describable documents →
    ∃ described st',
      generate_descriptions documents st = (Returned described, st')
      ∧ llm st' = llm st
      ∧ asked st' = asked st ++ (prompt_of <$> documents)
      ∧ Forall2 (λ d d', ∃ desc, d' = <["description" := VStr desc]> d)
                documents described.
Proof.
  induction documents as [|doc documents IH]; intros st Hall.
  - exists [], st. rewrite app_nil_r. by repeat split.
  - apply Forall_cons in Hall as [(title & snippet & Htitle & Hsnippet) Hall].
    cbn [generate_descriptions].
    rewrite (describe_describable _ _ _ _ Htitle Hsnippet).
    destruct (IH {| llm := llm st; asked := asked st ++ [prompt_of doc] |} Hall)
      as (described & st' & -> & Hllm & Hasked & Hdescribed).
    eexists _, st'. split; [done|]. split; [done|].
    split; [rewrite Hasked; cbn [llm asked fmap list_fmap]; by rewrite <-app_assoc|].
    constructor; [by eexists|done].
Qed.

(** X16.  Given documents that have a title and a snippet, both strings,
    [generate_descriptions] raises nothing and returns as many documents, in
    the same order: each has a description and is otherwise as it was.  The
    model is asked once for every document, in order. *)
Theorem descriptions_added documents st :
  Forall describable documents →
  ∃ described st',
    generate_descriptions documents st = (Returned described, st')
    ∧ asked st' = asked st ++ (prompt_of <$> documents)
    ∧ Forall2 (λ d d',
                 (∃ desc, d' !! "description" = Some (VStr desc))
                 ∧ ∀ k, k ≠ "description" → d' !! k = d !! k)
              documents described.
Proof.
  intros Hall.
  destruct (generate_descriptions_returns documents st Hall)
    as (described & st' & Hrun & _ & Hasked & Hdescribed).
  exists described, st'. split; [done|]. split; [done|].
  eapply Forall2_impl; [exact Hdescribed|].
  intros d d' [desc ->]. split.
  - exists desc. apply lookup_insert_eq.
  - intros k Hk. by apply lookup_insert_ne.
Qed.

(** X17.  When every call of the model fails, the description of each
    document is the first 200 characters of its snippet. *)
Theorem fallback_descriptions documents st :
  Forall describable documents →
  (∀ n p, llm st n p = None) →
  ∃ described st',
    generate_descriptions documents st = (Returned described, st')
    ∧ Forall2 (λ d d',
                 ∃ snippet,
                   d !! "content_snippet" = Some (VStr snippet)
                   ∧ d' = <["description" := VStr (take 200 snippet)]> d)
              documents described.
Proof.
  revert st. induction documents as [|doc documents IH]; intros st Hall Hmute.
  - by exists [], st.
  - apply Forall_cons in Hall as [(title & snippet & Htitle & Hsnippet) Hall].
    cbn [generate_descriptions].
    rewrite (describe_describable _ _ _ _ Htitle Hsnippet), Hmute.
    destruct (IH {| llm := llm st; asked := asked st ++ [prompt_of doc] |} Hall Hmute)
      as (described & st' & -> & Hdescribed).
    eexists _, st'. split; [done|]. constructor; [by exists snippet|done].
Qed.

(** X18.  A document without [content_snippet] stops the run with
    [KeyError]: the documents before it have been sent to the model, this
    one and those after it have not. *)
Theorem missing_snippet before doc later st :
  Forall describable before →
  doc !! "content_snippet" = None →
  ∃ st',
    generate_descriptions (before ++ doc :: later) st
    = (Raised (KeyError "content_snippet"), st')
    ∧ asked st' = asked st ++ (prompt_of <$> before).
Proof.
  intros Hbefore Hnone. revert st.
  induction Hbefore as [|d before (title & snippet & Htitle & Hsnippet) _ IH]; intros st.
  - cbn [app generate_descriptions]. unfold describe, fallback. rewrite Hnone.
    exists st. rewrite app_nil_r. by destruct (doc !! "title").
  - cbn [app generate_descriptions].
    rewrite (describe_describable _ _ _ _ Htitle Hsnippet).
    destruct (IH {| llm := llm st; asked := asked st ++ [prompt_of d] |})
      as (st' & -> & Hasked).
    exists st'. split; [done|].
    rewrite Hasked. cbn [asked fmap list_fmap]. by rewrite <-app_assoc.
Qed.
End DescriptionProperties.

Lemma descriptions_added_witness :
  ∃ described st',
    generate_descriptions (U := ascii_unicode) [section_document; document_b] chatty
    = (Returned described, st')
    ∧ asked st' = asked chatty ++ (prompt_of <$> [section_document; document_b])
    ∧ Forall2 (λ d d',
                 (∃ desc, d' !! "description" = Some (VStr desc))
                 ∧ ∀ k, k ≠ "description" → d' !! k = d !! k)
              [section_document; document_b] described.
Proof.
  apply (descriptions_added (U := ascii_unicode) [section_document; document_b] chatty).
  repeat constructor; eexists _, _; split; vm_compute; reflexivity.
Defined.

Lemma fallback_descriptions_witness :
  ∃ described st',
    generate_descriptions (U := ascii_unicode) [section_document; document_b] mute
    = (Returned described, st')
    ∧ Forall2 (λ d d',
                 ∃ snippet,
                   d !! "content_snippet" = Some (VStr snippet)
                   ∧ d' = <["description" := VStr (take 200 snippet)]> d)
              [section_document; document_b] described.
Proof.
  apply (fallback_descriptions (U := ascii_unicode) [section_document; document_b] mute).
  - repeat constructor; eexists _, _; split; vm_compute; reflexivity.
  - intros n p. reflexivity.
Defined.

Lemma missing_snippet_witness :
  ∃ st',
    generate_descriptions (U := ascii_unicode)
      ([document_b] ++ error_dict page_a (lit "Timeout 45000ms exceeded") :: [section_document])
      chatty
    = (Raised (KeyError "content_snippet"), st')
    ∧ asked st' = asked chatty ++ (prompt_of <$> [document_b]).
Proof.
  apply (missing_snippet (U := ascii_unicode) [document_b]
           (error_dict page_a (lit "Timeout 45000ms exceeded")) [section_document] chatty).
  - repeat constructor; eexists _, _; split; vm_compute; reflexivity.
  - vm_compute. reflexivity.
Defined.

(** ** The whole script *)

Lemma concat_groups_bound (links : list NavLink) :
  ∀ counts : list nat,
    Forall (λ c, 1 ≤ c ≤ 3)%nat counts →
    (length (concat (zip_with (λ link c, replicate c (url link)) links counts))
     ≤ 3 * length counts)%nat.
Proof.
  induction links as [|link links IH]; intros counts Hall; [cbn; lia|].
  destruct Hall as [|c counts Hc Hall]; [cbn; lia|].
  cbn [zip_with concat length]. rewrite length_app, length_replicate.
  specialize (IH counts Hall). lia.
Qed.

Lemma document_describable title url nav_text section_content crawled_at :
  describable (document title url nav_text section_content crawled_at).
Proof. by eexists _, _. Qed.

Lemma summary_none documents :
  Forall (λ d, is_Some (d !! "title") ∧ is_Some (d !! "url")
               ∧ is_Some (d !! "description")) documents →
  summary documents = None.
Proof.
  induction 1 as [|d documents ([t Ht] & [u Hu] & [desc Hdesc]) _ IH]; [done|].
  cbn [summary]. unfold summary_line. by rewrite Ht, Hu, Hdesc.
Qed.

Section Script.
Context {U : Unicode}.

(** The loop over the links fetches at most three times for a link. *)
Lemma crawl_pages_fetch_bound nav_links documents w :
  (length (fetched (trace (crawl_pages nav_links documents w).2))
   ≤ length (fetched (trace w)) + 3 * length nav_links)%nat.
Proof.
  destruct (crawl_pages_fetched nav_links documents w)
    as (counts & Hall & -> & Hlen & _).
  rewrite length_app. pose proof (concat_groups_bound nav_links counts Hall). lia.
Qed.

(** What a session returns are Documents, no more than it has links to go
    through. *)
Lemma crawl_pages_documents nav_links w docs w' :
  crawl_pages nav_links [] w = (Ok docs, w') →
  (length docs ≤ length nav_links)%nat
  ∧ Forall (λ d, ∃ title url nav_text section_content crawled_at,
                   d = document title url nav_text section_content crawled_at) docs.
Proof.
  rewrite crawl_pages_page_results.
  destruct (page_results nav_links w) as [[results|e] w2] eqn:Hresults; [|intros [=]].
  intros [= <- _]. cbn [app].
  revert w results w2 Hresults.
  induction nav_links as [|link nav_links IH]; intros w results w2.
  - intros [= <- _]. by split.
  - cbn [page_results]. rewrite bind_unfold.
    destruct (crawl_single_page _ _ _ w) as [[doc|e] w1] eqn:Hpage; [|intros [=]].
    rewrite bind_unfold. unfold sleep at 1. rewrite bind_unfold.
    destruct (page_results nav_links _) as [[results'|e] w3] eqn:Hrest; [|intros [=]].
    intros [= <- _]. destruct (IH _ _ _ Hrest) as [Hlen Hall].
    rewrite filter_cons. case_decide as Hdoc; [|cbn [length]; split; [lia|done]].
    cbn [length]. split; [lia|]. constructor; [|done].
    destruct (crawl_single_page_returns _ _ _ _ _ _ Hpage)
      as [[msg ->]|(title & content & crawled_at & ->)].
    + unfold is_document in Hdoc. by rewrite truthy_error_dict in Hdoc.
    + by eexists _, _, _, _, _.
Qed.

(** X19.  With a positive [max_pages] a session fetches the TOC page and
    then at most three times [max_pages] pages, whatever the site answers
    and however the session ends. *)
Theorem session_fetch_budget toc_url max_pages w :
  0 < max_pages →
  (length (fetched (trace (crawl_documentation_bundle toc_url (Some max_pages) w).2))
   ≤ length (fetched (trace w)) + 1 + 3 * Z.to_nat max_pages)%nat.
Proof.
  intros Hpos. rewrite bundle_unfold, extract_unfold. cbv zeta.
  set (r := if negb _ then _ else _).
  assert (Hone : length (fetched (trace (log (Fetch toc_url) w)))
                 = (length (fetched (trace w)) + 1)%nat)
    by (by rewrite fetched_log_fetch, length_app).
  destruct r as [nav_links|e]; [|cbn [snd]; lia].
  case_bool_decide; [cbn [snd]; lia|].
  rewrite (proj2 (Z.eqb_neq max_pages 0)) by lia.
  rewrite length_slice_to by done.
  pose proof (crawl_pages_fetch_bound (take (Z.to_nat max_pages) nav_links) []
                (log (Fetch toc_url) w)) as Hbound.
  rewrite length_take in Hbound. lia.
Qed.

Lemma session_documents toc_url max_pages w docs w' :
  0 < max_pages →
  crawl_documentation_bundle toc_url (Some max_pages) w = (Ok docs, w') →
  (length docs ≤ Z.to_nat max_pages)%nat
  ∧ Forall (λ d, ∃ title url nav_text section_content crawled_at,
                   d = document title url nav_text section_content crawled_at) docs.
Proof.
  intros Hpos. rewrite bundle_unfold.
  destruct (extract_navigation_links toc_url w) as [[nav_links|e] w1]; [|intros [=]].
  case_bool_decide; [intros [= <- _]; split; [cbn; lia|done]|].
  rewrite (proj2 (Z.eqb_neq max_pages 0)) by lia.
  rewrite length_slice_to by done. intros Hrun.
  destruct (crawl_pages_documents _ _ _ _ Hrun) as [Hlen Hall].
  rewrite length_take in Hlen. split; [lia|done].
Qed.

(** X20.  [main] ends in one of three ways.  The crawl raises: nothing is
    written and the model is not asked.  The crawl returns no document:
    nothing is written and the model is not asked.  The crawl returns
    documents, ten at most: they are all described, the model being asked
    once for each, and written, with their descriptions, to
    [motorola_docs.json], the one file the run writes.  Neither the
    descriptions nor the summary raise. *)
Theorem main_outcome h :
  ((∃ e, (main h).1 = CrawlRaised e)
   ∧ files (main h).2 = files h ∧ studio (main h).2 = studio h)
  ∨ ((main h).1 = Finished
     ∧ (crawl_documentation_bundle toc_url (Some 10) (net h)).1 = Ok []
     ∧ files (main h).2 = files h ∧ studio (main h).2 = studio h)
  ∨ ((main h).1 = Finished
     ∧ ∃ docs described,
         (crawl_documentation_bundle toc_url (Some 10) (net h)).1 = Ok docs
         ∧ docs ≠ []
         ∧ (length docs ≤ 10)%nat
         ∧ files (main h).2 = files h ++ [("motorola_docs.json"%string, described)]
         ∧ Forall2 (λ d d', ∃ desc, d' = <["description" := VStr desc]> d) docs described
         ∧ asked (studio (main h).2) = asked (studio h) ++ (prompt_of <$> docs)).
Proof.
  unfold main.
  destruct (crawl_documentation_bundle toc_url (Some 10) (net h))
    as [[docs|e] w] eqn:Hcrawl; [|left; split; [by eexists|done]].
  right. case_bool_decide as Hnone; [left; by subst docs|right].
  assert (Hten : 0 < 10) by lia.
  destruct (session_documents _ _ _ _ _ Hten Hcrawl) as [Hlen Hdocs].
  assert (Hdescribable : Forall describable docs).
  { eapply Forall_impl; [exact Hdocs|].
    intros d (title & url & nav_text & content & crawled_at & ->).
    apply document_describable. }
  cbn [studio net files].
  destruct (generate_descriptions_returns docs (studio h) Hdescribable)
    as (described & st' & -> & _ & Hasked & Hdescribed).
  assert (Hsummary : summary (take 3 described) = None).
  { apply summary_none, Forall_take.
    clear -Hdocs Hdescribed. induction Hdescribed as [|d d' docs described [desc ->] _ IH].
    - constructor.
    - apply Forall_cons in Hdocs
        as [(title & url & nav_text & content & crawled_at & ->) Hdocs].
      constructor; [|by apply IH].
      by repeat split; eexists. }
  rewrite Hsummary. cbn [fst snd]. split; [done|].
  exists docs, described. by repeat split.
Qed.
End Script.

Lemma session_fetch_budget_witness :
  (length (fetched (trace (crawl_documentation_bundle (U := ascii_unicode) toc_url
                             (Some 3%Z) ten_web).2))
   ≤ length (fetched (trace ten_web)) + 1 + 3 * Z.to_nat 3%Z)%nat.
Proof.
  apply (session_fetch_budget (U := ascii_unicode) toc_url 3 ten_web). lia.
Defined.

(** A run of the whole script on the site with a bad day: one document is
    crawled, described and written. *)
Example main_on_flaky_web :
  (main (U := ascii_unicode) (host flaky_web chatty)).1 = Finished
  ∧ files (main (U := ascii_unicode) (host flaky_web chatty)).2
    = [("motorola_docs.json"%string,
        [<["description" := VStr (lit "Explains how to install the product.")]> document_b])].
Proof. split; vm_compute; reflexivity. Qed.
